(** * Community dashboard: scroll restoration hook and people API

    A shallow embedding of

    - [src/lib/hooks/useScrollRestoration.ts]: the hook that saves the
      window's vertical scroll offset when a view is deactivated and restores
      it when the view is activated again;
    - the [GET] handler of the people API: the merge of the per-period
      leaderboard files into one list of contributors.

    JavaScript numbers that hold pixel offsets, points and timestamps are
    integers here ([Z]); strings are [string]. *)

From Stdlib Require Import ZArith List Bool String Ascii Lia.
From Stdlib Require Import Permutation Sorted.
From Stdlib Require QArith.
From Stdlib Require SpecFloat.
Import ListNotations.
Local Open Scope Z_scope.

(* ===================================================================== *)
(** * The scroll restoration hook *)
(* ===================================================================== *)

Module ScrollRestoration.

(** The four [useRef] cells of the hook.  They are created once, on the
    first render, and survive every later render. *)
Record Refs : Type := mkRefs {
  savedScrollY : Z;
  hasMounted : bool;
  prevIsActive : bool;
  skipNextAutoSave : bool
}.

Definition set_savedScrollY (y : Z) (r : Refs) : Refs :=
  mkRefs y (hasMounted r) (prevIsActive r) (skipNextAutoSave r).

Definition set_hasMounted (b : bool) (r : Refs) : Refs :=
  mkRefs (savedScrollY r) b (prevIsActive r) (skipNextAutoSave r).

Definition set_prevIsActive (b : bool) (r : Refs) : Refs :=
  mkRefs (savedScrollY r) (hasMounted r) b (skipNextAutoSave r).

Definition set_skipNextAutoSave (b : bool) (r : Refs) : Refs :=
  mkRefs (savedScrollY r) (hasMounted r) (prevIsActive r) b.

(** The refs as the first render creates them:
    [useRef(0)], [useRef(false)], [useRef(isActive)], [useRef(false)]. *)
Definition useScrollRestoration (isActive : bool) : Refs :=
  mkRefs 0 false isActive false.

(** The [behavior] member of the options of [window.scrollTo]. *)
Inductive ScrollBehavior : Type :=
| behavior_auto
| behavior_smooth
| behavior_instant.

(** What the hook asks of the window.  The callback handed to
    [requestAnimationFrame] is the list of requests it makes when it runs. *)
#[local] Set Warnings "-register-all".
Inductive Effect : Type :=
| requestAnimationFrame (callback : list Effect)
| scrollTo (top : Z) (behavior : ScrollBehavior).

(** The callback of [useLayoutEffect]: the spec's [observe].  [scrollY] is
    what [window.scrollY] reads while the callback runs. *)
Definition layoutEffect (isActive : bool) (scrollY : Z) (r : Refs)
  : Refs * list Effect :=
  let wasActive := prevIsActive r in
  let r := set_prevIsActive isActive r in
  if negb (hasMounted r) then
    (set_hasMounted true r, [])
  else if wasActive && negb isActive then
    if skipNextAutoSave r then
      (set_skipNextAutoSave false r, [])
    else
      let y := scrollY in
      if negb (y =? 0) || (savedScrollY r =? 0) then
        (set_savedScrollY y r, [])
      else
        (r, [])
  else if negb wasActive && isActive then
    let y := savedScrollY r in
    if y =? 0 then (r, [])
    else
      (r, [requestAnimationFrame
             [requestAnimationFrame [scrollTo y behavior_auto]]])
  else
    (r, []).

(** The function the hook returns to its caller. *)
Definition saveScrollPosition (scrollY : Z) (r : Refs) : Refs :=
  let r := set_skipNextAutoSave true r in
  set_savedScrollY scrollY r.

(** ** React's scheduling of the effect

    The effect has the dependency list [[isActive]]: it runs after the first
    render and after every render whose [isActive] differs from the one of
    the render before. *)
Record Hook : Type := mkHook {
  refs : Refs;
  deps : bool
}.

Definition mount (isActive : bool) (scrollY : Z) : Hook * list Effect :=
  let (r, effs) := layoutEffect isActive scrollY (useScrollRestoration isActive) in
  (mkHook r isActive, effs).

Definition rerender (isActive : bool) (scrollY : Z) (h : Hook)
  : Hook * list Effect :=
  if Bool.eqb (deps h) isActive then (h, [])
  else
    let (r, effs) := layoutEffect isActive scrollY (refs h) in
    (mkHook r isActive, effs).

(** After the mount the refs record the flag of the last render that ran
    the effect. *)
Definition consistent (h : Hook) : Prop :=
  hasMounted (refs h) = true /\ prevIsActive (refs h) = deps h.

(** ** The window's animation frames

    The part of the browser the hook talks to: the callbacks waiting for
    the next rendering pass, and the scroll commands issued so far. *)

Record Window : Type := mkWindow {
  animationFrameCallbacks : list (list Effect);
  scrollCommands : list (Z * ScrollBehavior)
}.

Definition idle : Window := mkWindow [] [].

Definition perform1 (w : Window) (e : Effect) : Window :=
  match e with
  | requestAnimationFrame callback =>
      mkWindow (animationFrameCallbacks w ++ [callback]) (scrollCommands w)
  | scrollTo top behavior =>
      mkWindow (animationFrameCallbacks w) (scrollCommands w ++ [(top, behavior)])
  end.

Definition perform (w : Window) (effs : list Effect) : Window :=
  fold_left perform1 effs w.

(** One rendering pass: the callbacks registered before the pass run, in the
    order of their registration; what they register waits for the next
    pass. *)
Definition animationFrame (w : Window) : Window :=
  fold_left perform (animationFrameCallbacks w)
            (mkWindow [] (scrollCommands w)).

Fixpoint animationFrames (n : nat) (w : Window) : Window :=
  match n with
  | O => w
  | S n' => animationFrames n' (animationFrame w)
  end.

(** ** Runs of the controller *)

Inductive Event : Type :=
| Observe (isActive : bool) (scrollY : Z)
| SaveScrollPosition (scrollY : Z).

Definition step (r : Refs) (e : Event) : Refs :=
  match e with
  | Observe isActive scrollY => fst (layoutEffect isActive scrollY r)
  | SaveScrollPosition scrollY => saveScrollPosition scrollY r
  end.

Definition run (r : Refs) (evs : list Event) : Refs := fold_left step evs r.

(** An observation is a transition when the controller has observed a flag
    before and that flag differs from the one observed now. *)
Definition deactivation (r : Refs) (isActive : bool) : bool :=
  hasMounted r && (prevIsActive r && negb isActive).

Definition activation (r : Refs) (isActive : bool) : bool :=
  hasMounted r && (negb (prevIsActive r) && isActive).

(** Observations only: a list of flags with what [window.scrollY] reads. *)
Definition observations (r : Refs) (obs : list (bool * Z)) : Refs :=
  fold_left (fun r o => fst (layoutEffect (fst o) (snd o) r)) obs r.

(** No observation of the list is a deactivation when it is made. *)
Fixpoint no_deactivation (r : Refs) (obs : list (bool * Z)) : bool :=
  match obs with
  | [] => true
  | o :: obs' =>
      negb (deactivation r (fst o))
      && no_deactivation (fst (layoutEffect (fst o) (snd o) r)) obs'
  end.

(** The restore request of the hook for the offset [y]. *)
Definition restore (y : Z) : list Effect :=
  [requestAnimationFrame [requestAnimationFrame [scrollTo y behavior_auto]]].

(** ** The life of a page

    The mount, then the renders after it, each with the flag of the render
    and what [window.scrollY] reads at that moment. *)
Definition renders (initial : bool) (scrollY : Z) (rs : list (bool * Z))
  : Hook :=
  fold_left (fun h o => fst (rerender (fst o) (snd o) h)) rs
            (fst (mount initial scrollY)).

(** What the window read at each event. *)
Definition readings (evs : list Event) : list Z :=
  map (fun e => match e with
                | Observe _ scrollY => scrollY
                | SaveScrollPosition scrollY => scrollY
                end) evs.

End ScrollRestoration.

(* ===================================================================== *)
(** * The people API *)
(* ===================================================================== *)

Module PeopleApi.

(** ** Strings *)

(** [String.prototype.includes]: [search] occurs somewhere in [s]. *)
Fixpoint includes (s search : string) : bool :=
  String.prefix search s
  || match s with
     | EmptyString => false
     | String _ s' => includes s' search
     end.

(** [String.prototype.endsWith]. *)
Fixpoint endsWith (s search : string) : bool :=
  String.eqb s search
  || match s with
     | EmptyString => false
     | String _ s' => endsWith s' search
     end.

(** ** The data of the leaderboard files *)

Record ActivityStat : Type := mkActivityStat {
  stat_count : Z;
  stat_points : Z
}.

Record DailyActivity : Type := mkDailyActivity {
  date : string;
  count : Z;
  points : Z
}.

Record ContributorEntry : Type := mkContributorEntry {
  username : string;
  name : option string;
  avatar_url : string;
  role : string;
  total_points : Z;
  activity_breakdown : list (string * ActivityStat);
  daily_activity : list DailyActivity
}.

(** [entries] is [None] for a file without that member: the handler reads
    [data.entries || []]. *)
Record LeaderboardData : Type := mkLeaderboardData {
  period : string;
  updatedAt : Z;
  entries : option (list ContributorEntry)
}.

Definition entries_or_empty (data : LeaderboardData) : list ContributorEntry :=
  match entries data with
  | Some es => es
  | None => []
  end.

(** ** The directory [public/leaderboard] *)

Inductive Exception : Type :=
| ReadError     (* [fs.readFileSync] throws *)
| SyntaxError   (* [JSON.parse] throws *)
| TypeError.    (* a property of [null] or [undefined] is read *)

(** What reading and parsing a file gives.

    - [Unreadable]: [fs.readFileSync] throws.
    - [Malformed]: [JSON.parse] throws.
    - [JsonNull]: the file holds [null], so [data.updatedAt] throws.
    - [Json data]: the file holds [data], and the [try] block ends without
      an exception.
    - [JsonThenThrows data unreached]: the file holds the [updatedAt] of
      [data] and a list of entries that starts with the entries of [data],
      goes on with an element that has no [username], on which
      [entry.username.includes] throws, and ends with [unreached]. *)
Inductive FileContent : Type :=
| Unreadable
| Malformed
| JsonNull
| Json (data : LeaderboardData)
| JsonThenThrows (data : LeaderboardData) (unreached : list ContributorEntry).

(** The directory in the order of [fs.readdirSync]. *)
Definition Directory : Type := list (string * FileContent).

(** [JSON.parse(fs.readFileSync(filePath, 'utf-8'))]: the value parsed,
    [None] for [null]. *)
Definition readAndParse (c : FileContent)
  : Exception + option LeaderboardData :=
  match c with
  | Unreadable => inl ReadError
  | Malformed => inl SyntaxError
  | JsonNull => inr None
  | Json data => inr (Some data)
  | JsonThenThrows data _ => inr (Some data)
  end.

(** What the loop over [data.entries] throws after the entries it has gone
    through, if it throws. *)
Definition loopThrows (c : FileContent) : option Exception :=
  match c with
  | JsonThenThrows _ _ => Some TypeError
  | _ => None
  end.

(** ** The [Map] of contributors, in insertion order *)

Definition ContributorMap : Type := list (string * ContributorEntry).

Fixpoint map_get (m : ContributorMap) (key : string) : option ContributorEntry :=
  match m with
  | [] => None
  | (k, v) :: m' => if String.eqb k key then Some v else map_get m' key
  end.

(** [Map.prototype.set]: a key that is present keeps its place. *)
Fixpoint map_set (m : ContributorMap) (key : string) (value : ContributorEntry)
  : ContributorMap :=
  match m with
  | [] => [(key, value)]
  | (k, v) :: m' =>
      if String.eqb k key then (k, value) :: m'
      else (k, v) :: map_set m' key value
  end.

Definition map_values (m : ContributorMap) : list ContributorEntry :=
  map snd m.

(** ** The handler *)

Inductive LogLine : Type :=
| ErrorReading (file : string) (error : Exception)
| ErrorFetchingPeople.

Record MergeState : Type := mkMergeState {
  allContributors : ContributorMap;
  latestUpdatedAt : Z;
  console : list LogLine
}.

(** The test that skips an entry. *)
Definition isBot (username : string) : bool :=
  includes username "[bot]"
  || includes username "bot"
  || includes username "dependabot"
  || includes username "renovate"
  || includes username "github-actions".

(** The body of the loop over [data.entries]. *)
Definition mergeEntry (m : ContributorMap) (entry : ContributorEntry)
  : ContributorMap :=
  if isBot (username entry) then m
  else
    match map_get m (username entry) with
    | None => map_set m (username entry) entry
    | Some existing =>
        if total_points entry >? total_points existing
        then map_set m (username entry) entry
        else m
    end.

(** The body of the [try] block of the loop over the files: the map and
    the timestamp as they are when the block is left, and the exception when
    it is left by one.  What the block has changed before an exception
    stays changed. *)
Definition tryFile (st : MergeState) (content : FileContent)
  : MergeState * option Exception :=
  match readAndParse content with
  | inl error => (st, Some error)
  | inr None => (st, Some TypeError)
  | inr (Some data) =>
      let latest :=
        if updatedAt data >? latestUpdatedAt st then updatedAt data
        else latestUpdatedAt st in
      (mkMergeState
         (fold_left mergeEntry (entries_or_empty data) (allContributors st))
         latest
         (console st),
       loopThrows content)
  end.

(** One turn of the loop over the files, with its [catch], which writes a
    line on the console and undoes nothing. *)
Definition processFile (st : MergeState) (file : string * FileContent)
  : MergeState :=
  let (st', thrown) := tryFile st (snd file) in
  match thrown with
  | None => st'
  | Some error =>
      mkMergeState (allContributors st') (latestUpdatedAt st')
                   (console st' ++ [ErrorReading (fst file) error])
  end.

(** The filter on the names of [fs.readdirSync]. *)
Definition isLeaderboardFile (file : string) : bool :=
  endsWith file ".json"
  && negb (String.eqb file "recent-activities.json").

(** The comparison function of the final sort. *)
Definition compareFn (a b : ContributorEntry) : Z :=
  total_points b - total_points a.

(** [Array.prototype.sort] is stable; for a comparison function that is a
    consistent order this fixes its result, which is computed here by
    insertion. *)
Fixpoint insert (cmp : ContributorEntry -> ContributorEntry -> Z)
         (x : ContributorEntry) (l : list ContributorEntry)
  : list ContributorEntry :=
  match l with
  | [] => [x]
  | y :: l' => if cmp x y <=? 0 then x :: y :: l' else y :: insert cmp x l'
  end.

Fixpoint sort (cmp : ContributorEntry -> ContributorEntry -> Z)
         (l : list ContributorEntry) : list ContributorEntry :=
  match l with
  | [] => []
  | x :: l' => insert cmp x (sort cmp l')
  end.

Inductive Response : Type :=
| Ok200 (updatedAt : Z) (people : list ContributorEntry)
| Error500.

Definition initialState : MergeState := mkMergeState [] 0 [].

(** The files the handler reads. *)
Definition leaderboardFiles (dir : Directory) : Directory :=
  filter (fun file => isLeaderboardFile (fst file)) dir.

Definition mergeFiles (files : Directory) : MergeState :=
  fold_left processFile files initialState.

(** [GET]; [None] is a directory that [fs.readdirSync] cannot list. *)
Definition GET (publicLeaderboard : option Directory)
  : Response * list LogLine :=
  match publicLeaderboard with
  | None => (Error500, [ErrorFetchingPeople])
  | Some dir =>
      let st := mergeFiles (leaderboardFiles dir) in
      let people := sort compareFn (map_values (allContributors st)) in
      (Ok200 (latestUpdatedAt st) people, console st)
  end.

(** ** Words of the specification *)

(** The files that were read and parsed, with what the loop went through
    of each. *)
Definition parsedFiles (files : Directory) : list LeaderboardData :=
  flat_map (fun file =>
              match snd file with
              | Json data => [data]
              | JsonThenThrows data _ => [data]
              | _ => []
              end) files.

(** Every entry of every parsed file, in the order of the loop. *)
Definition allEntries (files : Directory) : list ContributorEntry :=
  flat_map entries_or_empty (parsedFiles files).

(** [search] is a substring of [s]. *)
Definition substring (search s : string) : Prop :=
  exists before after, s = (before ++ search ++ after)%string.

Definition botLike (username : string) : Prop :=
  substring "bot" username
  \/ substring "[bot]" username
  \/ substring "dependabot" username
  \/ substring "renovate" username
  \/ substring "github-actions" username.

Definition readable (c : FileContent) : bool :=
  match c with
  | Json _ => true
  | _ => false
  end.

(** The exception that ends the [try] block for a file. *)
Definition failure (c : FileContent) : option Exception :=
  match c with
  | Unreadable => Some ReadError
  | Malformed => Some SyntaxError
  | JsonNull => Some TypeError
  | Json _ => None
  | JsonThenThrows _ _ => Some TypeError
  end.

(** The lines the loop writes with [console.error], in order. *)
Definition readErrors (files : Directory) : list LogLine :=
  flat_map (fun file =>
              match failure (snd file) with
              | Some error => [ErrorReading (fst file) error]
              | None => []
              end) files.

(** The file is unreadable or fails to parse. *)
Definition skipped (c : FileContent) : bool :=
  match c with
  | Unreadable | Malformed => true
  | _ => false
  end.

(** [latest] is the most recent [updatedAt] among [files]: one of them has
    it and none has a later one. *)
Definition mostRecent (latest : Z) (files : list LeaderboardData) : Prop :=
  (exists data, In data files /\ updatedAt data = latest)
  /\ (forall data, In data files -> updatedAt data <= latest).

(** [m] is the highest-score-wins union of the entries [seen]. *)
Record Merged (m : ContributorMap) (seen : list ContributorEntry) : Prop := {
  merged_nodup : NoDup (map fst m);
  merged_sound :
    forall k v, In (k, v) m -> username v = k /\ In v seen /\ isBot k = false;
  merged_max :
    forall k v e,
      In (k, v) m -> In e seen -> username e = k ->
      total_points e <= total_points v;
  merged_complete :
    forall e, In e seen -> isBot (username e) = false ->
              exists v, In (username e, v) m
}.

(** ** A sample directory *)

Definition contributor (username : string) (total_points : Z)
  : ContributorEntry :=
  mkContributorEntry username None "" "contributor" total_points [] [].

Definition sampleDirectory : Directory :=
  [ ("week.json"%string,
     Json (mkLeaderboardData
             "week" 1700000000000
             (Some [contributor "alice" 10;
                    contributor "dependabot[bot]" 99;
                    contributor "carol" 7])));
    ("recent-activities.json"%string,
     Json (mkLeaderboardData "recent" 1900000000000
                             (Some [contributor "mallory" 1000])));
    ("month.json"%string, Malformed);
    ("notes.txt"%string, Unreadable);
    ("year.json"%string,
     Json (mkLeaderboardData
             "year" 1800000000000
             (Some [contributor "carol" 30;
                    contributor "alice" 4;
                    contributor "robot" 3]))) ].

(** A directory with a file whose second entry has no username. *)
Definition brokenDirectory : Directory :=
  [ ("week.json"%string,
     JsonThenThrows
       (mkLeaderboardData "week" 50 (Some [contributor "alice" 10]))
       [contributor "carol" 7]);
    ("month.json"%string,
     Json (mkLeaderboardData "month" 40 (Some [contributor "dave" 3]))) ].

(** One readable file, stamped before the epoch. *)
Definition earlyDirectory : Directory :=
  [ ("week.json"%string,
     Json (mkLeaderboardData "week" (-1) (Some [contributor "alice" 10]))) ].

(** [p] is the first of the entries [seen] with its username that has
    the most points: the ones before it have fewer, the ones after it have
    no more. *)
Definition firstHighest (p : ContributorEntry) (seen : list ContributorEntry)
  : Prop :=
  exists before after,
    seen = before ++ p :: after
    /\ (forall e, In e before -> username e = username p ->
                  total_points e < total_points p)
    /\ (forall e, In e after -> username e = username p ->
                  total_points e <= total_points p).

(** The people of an answer; the error answer has none. *)
Definition peopleOf (response : Response) : list ContributorEntry :=
  match response with
  | Ok200 _ people => people
  | Error500 => []
  end.

(** Username and points of an entry. *)
Definition score (p : ContributorEntry) : string * Z :=
  (username p, total_points p).

End PeopleApi.

(* ===================================================================== *)
(** * The people page *)
(* ===================================================================== *)

Module PeoplePage.

Import PeopleApi.

(** [FilterState] is declared with the [SearchFilter] component, whose
    source is not at hand: its fields are those of the page's first state,
    the values of [sortBy] the cases of the [switch] of the sort, and
    [sortOrder] is "desc" or not. *)
Inductive SortBy : Type :=
| sortBy_name
| sortBy_points
| sortBy_activity
| sortBy_recent.

Inductive SortOrder : Type :=
| asc
| desc.

Inductive ViewMode : Type :=
| grid
| list_view.

Record FilterState : Type := mkFilterState {
  search : string;
  sortBy : SortBy;
  sortOrder : SortOrder;
  minPoints : Z;
  viewMode : ViewMode
}.

(** The filters of the first render. *)
Definition initialFilters : FilterState :=
  mkFilterState "" sortBy_points desc 0 grid.

(** [c.name || c.username]: a missing or empty name gives the username. *)
Definition nameOrUsername (c : ContributorEntry) : string :=
  match name c with
  | Some (String a n) => String a n
  | _ => username c
  end.

(** A whole number as a JavaScript number: the double nearest to it. *)
Definition toDouble (z : Z) : SpecFloat.spec_float :=
  SpecFloat.binary_normalize 53 1024 z 0 false.

(** The sum of the counts of [activity_breakdown], added one after the
    other to 0 in double precision, in the order of [Object.values]. *)
Definition activityCount (c : ContributorEntry) : SpecFloat.spec_float :=
  fold_left (fun sum act =>
               SpecFloat.SFadd 53 1024 sum (toDouble (stat_count (snd act))))
            (activity_breakdown c) (SpecFloat.S754_zero false).

(** The sign of a double as [Array.prototype.sort] takes it: [NaN] counts
    as 0. *)
Definition signOf (d : SpecFloat.spec_float) : Z :=
  match SpecFloat.SFcompare d (SpecFloat.S754_zero false) with
  | Some Lt => -1
  | Some Gt => 1
  | _ => 0
  end.

(** A JavaScript number as the sort by "recent" meets it. *)
Inductive Recent : Type :=
| NaN
| NegativeInfinity
| Time (milliseconds : Z).

(** [Math.max] of two numbers. *)
Definition mathMax (a b : Recent) : Recent :=
  match a, b with
  | NaN, _ | _, NaN => NaN
  | NegativeInfinity, x | x, NegativeInfinity => x
  | Time x, Time y => Time (Z.max x y)
  end.

(** The sign of [a - b] as [Array.prototype.sort] takes it: a difference
    that is [NaN] counts as 0. *)
Definition difference (a b : Recent) : Z :=
  match a, b with
  | NaN, _ | _, NaN => 0
  | NegativeInfinity, NegativeInfinity => 0
  | NegativeInfinity, Time _ => -1
  | Time _, NegativeInfinity => 1
  | Time x, Time y => x - y
  end.

Section Environment.

(** [String.prototype.toLowerCase] and [String.prototype.localeCompare]
    depend on Unicode and on the locale; [getTime] is
    [new Date(date).getTime()], [None] for a date that does not parse. *)
Variable toLowerCase : string -> string.
Variable localeCompare : string -> string -> Z.
Variable getTime : string -> option Z.

(** [Math.max(...dates)]: minus infinity when there is no date. *)
Definition recentActivity (c : ContributorEntry) : Recent :=
  fold_left (fun latest d =>
               mathMax latest
                       match getTime (PeopleApi.date d) with
                       | Some t => Time t
                       | None => NaN
                       end)
            (daily_activity c) NegativeInfinity.

(** The test of the search box. *)
Definition matchesSearch (searchLower : string) (c : ContributorEntry) : bool :=
  includes (toLowerCase (nameOrUsername c)) searchLower
  || includes (toLowerCase (username c)) searchLower
  || includes (toLowerCase (role c)) searchLower.

Definition compareValue (by_ : SortBy) (a b : ContributorEntry) : Z :=
  match by_ with
  | sortBy_name => localeCompare (nameOrUsername a) (nameOrUsername b)
  | sortBy_points => total_points a - total_points b
  | sortBy_activity =>
      signOf (SpecFloat.SFsub 53 1024 (activityCount a) (activityCount b))
  | sortBy_recent => difference (recentActivity a) (recentActivity b)
  end.

(** The comparison function handed to [filtered.sort]. *)
Definition compareContributors (filters : FilterState)
           (a b : ContributorEntry) : Z :=
  let compareValue := compareValue (sortBy filters) a b in
  match sortOrder filters with
  | desc => - compareValue
  | asc => compareValue
  end.

(** The body of the [useMemo] that computes [filteredContributors]. *)
Definition filteredContributors (people : list ContributorEntry)
           (filters : FilterState) : list ContributorEntry :=
  let filtered := people in
  let filtered :=
    match search filters with
    | EmptyString => filtered
    | _ =>
        let searchLower := toLowerCase (search filters) in
        filter (matchesSearch searchLower) filtered
    end in
  let filtered :=
    if minPoints filters >? 0
    then filter (fun c => total_points c >=? minPoints filters) filtered
    else filtered in
  sort (compareContributors filters) filtered.

(** The contributor passes the search box and the points filter. *)
Definition passes (filters : FilterState) (c : ContributorEntry) : Prop :=
  (search filters = EmptyString
   \/ matchesSearch (toLowerCase (search filters)) c = true)
  /\ (minPoints filters <= 0 \/ minPoints filters <= total_points c).

End Environment.

End PeoplePage.

(* ===================================================================== *)
(** * The contribution heatmap *)
(* ===================================================================== *)

Module Heatmap.

Import PeopleApi.

(** A cell of the grid: a day of the last year, or an empty cell (its
    [date] is empty) before the first day or after the last one. *)
Record Day : Type := mkDay {
  date : string;
  count : Z;
  points : Z;
  dayOfWeek : nat;
  isToday : bool
}.

(** ** The [Map] from dates to activity *)

Definition ActivityMap : Type := list (string * DailyActivity).

Fixpoint activity_get (m : ActivityMap) (key : string) : option DailyActivity :=
  match m with
  | [] => None
  | (k, v) :: m' => if String.eqb k key then Some v else activity_get m' key
  end.

Fixpoint activity_set (m : ActivityMap) (key : string) (value : DailyActivity)
  : ActivityMap :=
  match m with
  | [] => [(key, value)]
  | (k, v) :: m' =>
      if String.eqb k key then (k, value) :: m'
      else (k, v) :: activity_set m' key value
  end.

(** [new Map(dailyActivity.map(day => [day.date, day]))]. *)
Definition activityMap (dailyActivity : list DailyActivity) : ActivityMap :=
  fold_left (fun m day => activity_set m (PeopleApi.date day) day)
            dailyActivity [].

(** ** The days of the last year *)

Section Today.

(** For the day [i] days before today: its date as
    [toISOString().split('T')[0]] gives it, and its [getDay()]. *)
Variable calendar : nat -> string * nat.

(** One turn of the loop of [generateDays]. *)
Definition generateDay (dailyActivity : list DailyActivity) (i : nat)
  : list Day :=
  let dateStr := fst (calendar i) in
  match dateStr with
  | EmptyString => []
  | _ =>
      let activity := activity_get (activityMap dailyActivity) dateStr in
      [mkDay dateStr
             match activity with
             | Some a => PeopleApi.count a
             | None => 0
             end
             match activity with
             | Some a => PeopleApi.points a
             | None => 0
             end
             (snd (calendar i))
             (Nat.eqb i 0)]
  end.

(** [for (let i = 364; i >= 0; i--)]. *)
Definition generateDays (dailyActivity : list DailyActivity) : list Day :=
  flat_map (generateDay dailyActivity) (rev (seq 0 365)).

End Today.

(** ** Levels and colours *)

(** [Math.max(...dailyActivity.map(d => d.points), 1)]. *)
Definition maxActivity (dailyActivity : list DailyActivity) : Z :=
  fold_right Z.max 1 (map PeopleApi.points dailyActivity).

(** The quotient [points / maxActivity] is taken in the rationals: for
    whole numbers of points below 2^52 the comparisons with 0.25, 0.5 and
    0.75 come out the same in double precision. *)
Definition getContributionLevel (maxActivity points : Z) : nat :=
  if points =? 0 then 0%nat
  else
    let intensity :=
      QArith_base.Qdiv (QArith_base.inject_Z points)
                       (QArith_base.inject_Z maxActivity) in
    if QArith_base.Qle_bool intensity (QArith_base.Qmake 1 4) then 1%nat
    else if QArith_base.Qle_bool intensity (QArith_base.Qmake 1 2) then 2%nat
    else if QArith_base.Qle_bool intensity (QArith_base.Qmake 3 4) then 3%nat
    else 4%nat.

Definition colors : list string :=
  [ "bg-gray-100 dark:bg-gray-800"%string;
    "bg-green-200 dark:bg-green-900"%string;
    "bg-green-300 dark:bg-green-700"%string;
    "bg-green-400 dark:bg-green-600"%string;
    "bg-green-500 dark:bg-green-500"%string ].

(** [colors[level]]; [None] is [undefined]. *)
Definition getContributionColor (level : nat) : option string :=
  nth_error colors level.

(** The level of a cell: [day.date ? getContributionLevel(day.points) : 0]. *)
Definition cellLevel (maxActivity : Z) (day : Day) : nat :=
  match date day with
  | EmptyString => 0%nat
  | _ => getContributionLevel maxActivity (points day)
  end.

(** ** The weeks *)

Definition emptyDay (dayOfWeek : nat) : Day := mkDay "" 0 0 dayOfWeek false.

(** The empty cells before the first day, when it is not a Sunday. *)
Definition leadingDays (days : list Day) : list Day :=
  match days with
  | [] => []
  | firstDay :: _ =>
      if negb (Nat.eqb (dayOfWeek firstDay) 0)
      then map emptyDay (seq 0 (dayOfWeek firstDay))
      else []
  end.

(** [while (currentWeek.length < 7) currentWeek.push(...)], for the last
    day; [fuel] bounds the turns of the loop. *)
Fixpoint fillWeek (fuel : nat) (currentWeek : list Day) : list Day :=
  match fuel with
  | O => currentWeek
  | S fuel' =>
      if Nat.ltb (List.length currentWeek) 7
      then fillWeek fuel' (currentWeek ++ [emptyDay (List.length currentWeek)])
      else currentWeek
  end.

(** [days.forEach]: [weeks] and [currentWeek] are the two variables the
    callback updates.  The days are distinct objects, so
    [day === days[days.length - 1]] holds for the last one only. *)
Fixpoint groupDays (days : list Day) (weeks : list (list Day))
         (currentWeek : list Day) : list (list Day) :=
  match days with
  | [] => weeks
  | day :: rest =>
      let currentWeek := currentWeek ++ [day] in
      let isLast := match rest with [] => true | _ => false end in
      if Nat.eqb (dayOfWeek day) 6 || isLast then
        let currentWeek :=
          if isLast then fillWeek 7 currentWeek else currentWeek in
        groupDays rest (weeks ++ [currentWeek]) []
      else
        groupDays rest weeks currentWeek
  end.

Definition weeksOf (days : list Day) : list (list Day) :=
  groupDays days [] (leadingDays days).

(** ** The month labels *)

Definition monthLabels : list string :=
  [ "Jan"%string; "Feb"%string; "Mar"%string; "Apr"%string; "May"%string;
    "Jun"%string; "Jul"%string; "Aug"%string; "Sep"%string; "Oct"%string;
    "Nov"%string; "Dec"%string ].

Record MonthPosition : Type := mkMonthPosition {
  month : string;
  position : Z
}.

Record MonthState : Type := mkMonthState {
  positions : list MonthPosition;
  currentMonth : Z;
  lastPosition : Z
}.

Section Months.

(** [new Date(date).getMonth()]. *)
Variable getMonth : string -> Z.

(** [monthLabels[month] || '']. *)
Definition monthLabel (month : Z) : string :=
  if month <? 0 then ""%string
  else nth (Z.to_nat month) monthLabels ""%string.

(** The callback of [weeks.forEach] in [getMonthPositions]. *)
Definition monthStep (st : MonthState) (indexed : nat * list Day)
  : MonthState :=
  let (weekIndex, week) := indexed in
  match find (fun day => negb (String.eqb (date day) "")) week with
  | Some firstDayOfWeek =>
      let month := getMonth (date firstDayOfWeek) in
      let position := Z.of_nat weekIndex * 16 in
      if negb (month =? currentMonth st) && (position >? lastPosition st + 40)
      then mkMonthState
             (positions st ++ [mkMonthPosition (monthLabel month) position])
             month position
      else st
  | None => st
  end.

Definition getMonthPositions (weeks : list (list Day)) : list MonthPosition :=
  positions
    (fold_left monthStep (combine (seq 0 (List.length weeks)) weeks)
               (mkMonthState [] (-1) (-60))).

End Months.

(** ** Words for the properties *)

(** The days are consecutive days of the calendar: each has a day of the
    week from 0 to 6, and the next day has the next one. *)
Fixpoint consecutive (days : list Day) : bool :=
  match days with
  | [] => true
  | day :: rest =>
      Nat.ltb (dayOfWeek day) 7
      && match rest with
         | [] => true
         | next :: _ => Nat.eqb (dayOfWeek next) ((dayOfWeek day + 1) mod 7)
         end
      && consecutive rest
  end.

Definition isEmptyDay (day : Day) : Prop := date day = EmptyString.

(** What the loop of [getMonthPositions] keeps true over [n] weeks: the
    labels are more than 40 pixels apart, none is to the right of
    [lastPosition], and each is at the left edge of a week. *)
Definition spaced (n : nat) (st : MonthState) : Prop :=
  StronglySorted (fun a b => position a + 40 < position b) (positions st)
  /\ Forall (fun p => position p <= lastPosition st) (positions st)
  /\ Forall (fun p => exists weekIndex,
                 (weekIndex < n)%nat /\ position p = Z.of_nat weekIndex * 16)
            (positions st).

(** A calendar for the examples: every day has the same date, today is a
    Wednesday. *)
Definition sampleCalendar (i : nat) : string * nat :=
  ("2024-05-15"%string, (3 + 6 * i) mod 7)%nat.

End Heatmap.

(* ===================================================================== *)
(** * Properties of the scroll restoration hook *)
(* ===================================================================== *)

Section ScrollRestorationFacts.

Import ScrollRestoration.

(** ** The five cases of the effect *)

Ltac split_refs r :=
  let saved := fresh "saved" in
  let mounted := fresh "mounted" in
  let prev := fresh "prev" in
  let skip := fresh "skip" in
  destruct r as [saved mounted prev skip]; simpl in *; subst.

Lemma layoutEffect_first :
  forall r isActive scrollY,
    hasMounted r = false ->
    layoutEffect isActive scrollY r
    = (mkRefs (savedScrollY r) true isActive (skipNextAutoSave r), []).
Proof.
  intros r isActive scrollY Hm. split_refs r. reflexivity.
Qed.

Lemma layoutEffect_unchanged :
  forall r isActive scrollY,
    hasMounted r = true ->
    prevIsActive r = isActive ->
    layoutEffect isActive scrollY r = (r, []).
Proof.
  intros r isActive scrollY Hm Hp. split_refs r.
  unfold layoutEffect; simpl. destruct isActive; reflexivity.
Qed.

Lemma layoutEffect_deactivate_skipped :
  forall r scrollY,
    hasMounted r = true ->
    prevIsActive r = true ->
    skipNextAutoSave r = true ->
    layoutEffect false scrollY r
    = (mkRefs (savedScrollY r) true false false, []).
Proof.
  intros r scrollY Hm Hp Hs. split_refs r. reflexivity.
Qed.

Lemma layoutEffect_deactivate_saving :
  forall r scrollY,
    hasMounted r = true ->
    prevIsActive r = true ->
    skipNextAutoSave r = false ->
    layoutEffect false scrollY r
    = (mkRefs (if negb (scrollY =? 0) || (savedScrollY r =? 0)
               then scrollY else savedScrollY r)
              true false false, []).
Proof.
  intros r scrollY Hm Hp Hs. split_refs r.
  unfold layoutEffect; simpl.
  destruct (negb (scrollY =? 0) || (saved =? 0)); reflexivity.
Qed.

Lemma layoutEffect_activate :
  forall r scrollY,
    hasMounted r = true ->
    prevIsActive r = false ->
    layoutEffect true scrollY r
    = (mkRefs (savedScrollY r) true true (skipNextAutoSave r),
       if savedScrollY r =? 0 then [] else restore (savedScrollY r)).
Proof.
  intros r scrollY Hm Hp. split_refs r.
  unfold layoutEffect; simpl. destruct (saved =? 0); reflexivity.
Qed.

(** The guard of the automatic save, as a proposition. *)
Lemma save_guard :
  forall y saved : Z,
    negb (y =? 0) || (saved =? 0) = true <-> (y <> 0 \/ saved = 0).
Proof.
  intros y saved. rewrite orb_true_iff, negb_true_iff, Z.eqb_neq, Z.eqb_eq.
  tauto.
Qed.

(** ** What an observation can change *)

(** An observation that is no deactivation leaves the saved offset and the
    one-shot flag alone. *)
Lemma observation_frame :
  forall r isActive scrollY,
    deactivation r isActive = false ->
    savedScrollY (fst (layoutEffect isActive scrollY r)) = savedScrollY r
    /\ skipNextAutoSave (fst (layoutEffect isActive scrollY r))
       = skipNextAutoSave r.
Proof.
  intros r isActive scrollY Hd. split_refs r.
  unfold deactivation in Hd; simpl in Hd.
  destruct mounted, prev, isActive; simpl in Hd; try discriminate;
    unfold layoutEffect; simpl; try (destruct (saved =? 0)); auto.
Qed.

Lemma observations_frame :
  forall obs r,
    no_deactivation r obs = true ->
    savedScrollY (observations r obs) = savedScrollY r
    /\ skipNextAutoSave (observations r obs) = skipNextAutoSave r.
Proof.
  induction obs as [|o obs IH]; intros r Hq; simpl in *.
  - auto.
  - apply andb_true_iff in Hq. destruct Hq as [Hd Hq].
    apply negb_true_iff in Hd.
    destruct (observation_frame r (fst o) (snd o) Hd) as [Hs Hk].
    destruct (IH _ Hq) as [Hs' Hk']. unfold observations in *.
    rewrite Hs', Hk'. auto.
Qed.

(** After any observation the controller has mounted and remembers the
    flag. *)
Lemma observation_records_flag :
  forall r isActive scrollY,
    hasMounted (fst (layoutEffect isActive scrollY r)) = true
    /\ prevIsActive (fst (layoutEffect isActive scrollY r)) = isActive.
Proof.
  intros r isActive scrollY. split_refs r. unfold layoutEffect; simpl.
  destruct mounted, prev, isActive, skip; simpl; auto;
    try (destruct (saved =? 0); simpl; auto; fail);
    destruct (negb (scrollY =? 0) || (saved =? 0)); simpl; auto.
Qed.

(** A reading of zero never replaces a saved offset that is not zero. *)
Lemma zero_reading_keeps :
  forall r isActive,
    savedScrollY r <> 0 ->
    savedScrollY (fst (layoutEffect isActive 0 r)) = savedScrollY r.
Proof.
  intros r isActive Hv. split_refs r. apply Z.eqb_neq in Hv.
  unfold layoutEffect; simpl.
  destruct mounted, prev, isActive, skip; simpl; auto; rewrite ?Hv; auto.
Qed.

Lemma zero_readings_keep :
  forall obs r,
    savedScrollY r <> 0 ->
    Forall (fun o => snd o = 0) obs ->
    savedScrollY (observations r obs) = savedScrollY r.
Proof.
  unfold observations.
  induction obs as [|[b y] obs IH]; intros r Hv Hz; simpl.
  - reflexivity.
  - inversion Hz as [|? ? Hy Hz']; subst. simpl in Hy; subst y.
    pose proof (zero_reading_keeps r b Hv) as Hk.
    rewrite IH; auto. congruence.
Qed.

(** ** React's scheduling

    Skipping the effect when the flag has not changed loses nothing: a
    render acts on the refs as the effect's callback does. *)
Lemma mount_consistent :
  forall isActive scrollY, consistent (fst (mount isActive scrollY)).
Proof.
  intros isActive scrollY. split; reflexivity.
Qed.

Lemma rerender_is_layoutEffect :
  forall h isActive scrollY,
    consistent h ->
    consistent (fst (rerender isActive scrollY h))
    /\ (refs (fst (rerender isActive scrollY h)),
        snd (rerender isActive scrollY h))
       = layoutEffect isActive scrollY (refs h).
Proof.
  intros [r d] isActive scrollY [Hm Hp]. simpl in Hm, Hp.
  unfold rerender; simpl.
  destruct (Bool.eqb d isActive) eqn:Hd.
  - apply Bool.eqb_prop in Hd.
    assert (Hpi : prevIsActive r = isActive) by congruence.
    rewrite (layoutEffect_unchanged r isActive scrollY Hm Hpi).
    split; [split; assumption | reflexivity].
  - destruct (observation_records_flag r isActive scrollY) as [Hm' Hp'].
    destruct (layoutEffect isActive scrollY r) as [r' effs]. simpl in *.
    split; [split; assumption | reflexivity].
Qed.

(** ** Animation frames *)

(** A window with no pending callback stays as it is, pass after pass. *)
Lemma animationFrames_settled :
  forall n cmds, animationFrames n (mkWindow [] cmds) = mkWindow [] cmds.
Proof.
  induction n as [|n IH]; intros cmds; simpl.
  - reflexivity.
  - unfold animationFrame; simpl. apply IH.
Qed.

(** The restore request, pass by pass, in a window with nothing pending. *)
Lemma restore_schedule :
  forall y cmds,
    let w := perform (mkWindow [] cmds) (restore y) in
    scrollCommands w = cmds
    /\ scrollCommands (animationFrames 1 w) = cmds
    /\ forall n,
         animationFrames (2 + n) w = mkWindow [] (cmds ++ [(y, behavior_auto)]).
Proof.
  intros y cmds w. subst w. simpl.
  repeat split. intros n. unfold animationFrame; simpl.
  apply animationFrames_settled.
Qed.

End ScrollRestorationFacts.

(** ** The scenarios of the specification, run *)

Section Scenarios.

Import ScrollRestoration.

Example save_on_deactivate :
  run (useScrollRestoration true)
      [Observe true 0; Observe true 0; Observe false 150]
  = mkRefs 150 true false false.
Proof. reflexivity. Qed.

Example zero_read_does_not_clobber :
  run (mkRefs 150 true true false) [Observe false 0]
  = mkRefs 150 true false false.
Proof. reflexivity. Qed.

Example restore_on_activate :
  layoutEffect true 0 (mkRefs 150 true false false)
  = (mkRefs 150 true true false, restore 150)
  /\ animationFrames 2 (perform idle (restore 150))
     = mkWindow [] [(150, behavior_auto)].
Proof. split; reflexivity. Qed.

Example no_restore_when_nothing_saved :
  layoutEffect true 0 (mkRefs 0 true false false)
  = (mkRefs 0 true true false, []).
Proof. reflexivity. Qed.

Example explicit_save_then_scroll_to_top :
  run (mkRefs 0 true true false)
      [SaveScrollPosition 300; Observe false 0]
  = mkRefs 300 true false false.
Proof. reflexivity. Qed.

End Scenarios.

Section ScrollRestorationClaims.

Import ScrollRestoration.

(** C5.  The first observation of a controller, whatever the flag it was
    created with and whatever the flag observed, records the flag and does
    nothing else: the saved offset does not depend on what the window reads
    (no save) and nothing is asked of the window (no restore).  This holds
    for the effect as React runs it on mount, and for any controller that
    has not observed yet. *)
Theorem first_observation_is_silent :
  (forall initial isActive scrollY,
      layoutEffect isActive scrollY (useScrollRestoration initial)
      = (mkRefs 0 true isActive false, [])
      /\ mount isActive scrollY
         = (mkHook (mkRefs 0 true isActive false) isActive, []))
  /\ (forall r isActive scrollY,
         hasMounted r = false ->
         layoutEffect isActive scrollY r
         = (mkRefs (savedScrollY r) true isActive (skipNextAutoSave r), [])).
Proof.
  split.
  - intros initial isActive scrollY. split; reflexivity.
  - exact layoutEffect_first.
Qed.

Lemma first_observation_is_silent_witness :
  layoutEffect false 480 (mkRefs 0 false true false)
  = (mkRefs 0 true false false, []).
Proof.
  apply (proj2 first_observation_is_silent (mkRefs 0 false true false) false 480).
  reflexivity.
Defined.

(** C6.  Observing the same flag twice in a row: the second observation
    asks nothing of the window and returns the controller exactly as the
    first one left it, the recorded flag included.  With React's dependency
    list the effect is not even run a second time. *)
Theorem repeated_observation_is_noop :
  (forall r isActive scrollY1 scrollY2,
      layoutEffect isActive scrollY2 (fst (layoutEffect isActive scrollY1 r))
      = (fst (layoutEffect isActive scrollY1 r), []))
  /\ (forall h scrollY, rerender (deps h) scrollY h = (h, [])).
Proof.
  split.
  - intros r isActive scrollY1 scrollY2.
    destruct (observation_records_flag r isActive scrollY1) as [Hm Hp].
    apply layoutEffect_unchanged; assumption.
  - intros h scrollY. unfold rerender. rewrite Bool.eqb_reflx. reflexivity.
Qed.

(** C1.  A deactivation that reads offset 0 leaves a saved offset [v <> 0]
    as it is, in every state of the controller (reachable or not, armed or
    not).  And whenever an event changes the saved offset, the event is an
    explicit [saveScrollPosition], or it is a deactivation with the one-shot
    flag unset whose reading is not zero or whose stored offset is zero; the
    new saved offset is the reading. *)
Theorem saved_offset_overwritten_only_by_nonzero_or_explicit :
  (forall r v,
      savedScrollY r = v ->
      v <> 0 ->
      deactivation r false = true ->
      savedScrollY (fst (layoutEffect false 0 r)) = v)
  /\ (forall r e,
         savedScrollY (step r e) <> savedScrollY r ->
         (exists y, e = SaveScrollPosition y /\ savedScrollY (step r e) = y)
         \/ (exists y, e = Observe false y
                       /\ deactivation r false = true
                       /\ skipNextAutoSave r = false
                       /\ (y <> 0 \/ savedScrollY r = 0)
                       /\ savedScrollY (step r e) = y)).
Proof.
  split.
  - intros r v Hv Hnz _. subst v. apply zero_reading_keeps. assumption.
  - intros r [isActive y | y] Hch.
    + right. simpl in Hch.
      destruct (deactivation r isActive) eqn:Hd.
      * unfold deactivation in Hd.
        apply andb_true_iff in Hd. destruct Hd as [Hm Hd].
        apply andb_true_iff in Hd. destruct Hd as [Hp Ha].
        apply negb_true_iff in Ha. subst isActive.
        exists y. simpl.
        destruct (skipNextAutoSave r) eqn:Hs.
        -- rewrite (layoutEffect_deactivate_skipped r y Hm Hp Hs) in Hch.
           simpl in Hch. congruence.
        -- rewrite (layoutEffect_deactivate_saving r y Hm Hp Hs) in *.
           simpl in *.
           destruct (negb (y =? 0) || (savedScrollY r =? 0)) eqn:Hg;
             [|congruence].
           apply save_guard in Hg.
           unfold deactivation. rewrite Hm, Hp. simpl. auto.
      * destruct (observation_frame r isActive y Hd) as [Hsame _].
        congruence.
    + left. exists y. split; reflexivity.
Qed.

Lemma saved_offset_overwritten_witness :
  savedScrollY (fst (layoutEffect false 0 (mkRefs 150 true true false))) = 150
  /\ ((exists y, Observe false 40 = SaveScrollPosition y
                 /\ savedScrollY (step (mkRefs 150 true true false)
                                       (Observe false 40)) = y)
      \/ (exists y, Observe false 40 = Observe false y
                    /\ deactivation (mkRefs 150 true true false) false = true
                    /\ skipNextAutoSave (mkRefs 150 true true false) = false
                    /\ (y <> 0 \/ savedScrollY (mkRefs 150 true true false) = 0)
                    /\ savedScrollY (step (mkRefs 150 true true false)
                                          (Observe false 40)) = y)).
Proof.
  split.
  - apply (proj1 saved_offset_overwritten_only_by_nonzero_or_explicit
                 (mkRefs 150 true true false) 150).
    + reflexivity.
    + discriminate.
    + reflexivity.
  - apply (proj2 saved_offset_overwritten_only_by_nonzero_or_explicit
                 (mkRefs 150 true true false) (Observe false 40)).
    simpl. discriminate.
Defined.

(** C2.  In a controller that has observed before, with the one-shot flag
    unset, a deactivation that reads offset [y] asks nothing of the window,
    records the flag, and commits [y] exactly when [y] is not zero or the
    stored offset is zero; otherwise the stored offset stays.  So
    [observe(true)] then [observe(false)] at offset 150 leaves 150 saved,
    from any such controller and from a fresh one after its first
    observation. *)
Theorem deactivation_commits_reading :
  (forall r y,
      hasMounted r = true ->
      prevIsActive r = true ->
      skipNextAutoSave r = false ->
      snd (layoutEffect false y r) = []
      /\ hasMounted (fst (layoutEffect false y r)) = true
      /\ prevIsActive (fst (layoutEffect false y r)) = false
      /\ skipNextAutoSave (fst (layoutEffect false y r)) = false
      /\ (savedScrollY (fst (layoutEffect false y r)) = y
          <-> (y <> 0 \/ savedScrollY r = 0))
      /\ (~ (y <> 0 \/ savedScrollY r = 0) ->
          savedScrollY (fst (layoutEffect false y r)) = savedScrollY r))
  /\ (forall r y,
         hasMounted r = true ->
         skipNextAutoSave r = false ->
         savedScrollY (observations r [(true, y); (false, 150)]) = 150)
  /\ (forall initial first y0 y1,
         savedScrollY (observations (useScrollRestoration initial)
                                    [(first, y0); (true, y1); (false, 150)])
         = 150).
Proof.
  assert (Hcycle : forall r y,
             hasMounted r = true ->
             skipNextAutoSave r = false ->
             savedScrollY (observations r [(true, y); (false, 150)]) = 150).
  { intros r y Hm Hs. unfold observations; simpl.
    destruct (observation_records_flag r true y) as [Hm1 Hp1].
    assert (Hs1 : skipNextAutoSave (fst (layoutEffect true y r)) = false).
    { destruct (prevIsActive r) eqn:Hp.
      - rewrite (layoutEffect_unchanged r true y Hm Hp). assumption.
      - rewrite (layoutEffect_activate r y Hm Hp). assumption. }
    rewrite (layoutEffect_deactivate_saving _ 150 Hm1 Hp1 Hs1).
    reflexivity. }
  split; [|split].
  - intros r y Hm Hp Hs.
    rewrite (layoutEffect_deactivate_saving r y Hm Hp Hs). simpl.
    repeat (split; [reflexivity|]).
    destruct (negb (y =? 0) || (savedScrollY r =? 0)) eqn:Hg.
    + apply save_guard in Hg. tauto.
    + assert (Hn : ~ (y <> 0 \/ savedScrollY r = 0)).
      { intro H. apply save_guard in H. congruence. }
      split; [|reflexivity].
      split; [|tauto].
      intro H. exfalso. apply Hn. destruct (Z.eq_dec y 0); [right|left]; lia.
  - exact Hcycle.
  - intros initial first y0 y1.
    change (savedScrollY
              (observations
                 (fst (layoutEffect first y0 (useScrollRestoration initial)))
                 [(true, y1); (false, 150)]) = 150).
    apply Hcycle; reflexivity.
Qed.

Lemma deactivation_commits_reading_witness :
  (savedScrollY (fst (layoutEffect false 0 (mkRefs 0 true true false))) = 0
   <-> (0 <> 0 \/ savedScrollY (mkRefs 0 true true false) = 0))
  /\ savedScrollY (observations (mkRefs 70 true false false)
                                [(true, 10); (false, 150)]) = 150.
Proof.
  split.
  - apply (proj1 deactivation_commits_reading (mkRefs 0 true true false) 0);
      reflexivity.
  - apply (proj1 (proj2 deactivation_commits_reading)
                 (mkRefs 70 true false false) 10); reflexivity.
Defined.

(** C3.  In a controller that has observed before, an activation
    (the recorded flag is inactive, the observed one active) changes nothing
    but the recorded flag.  With a saved offset of zero it asks nothing of
    the window.  With a saved offset [v <> 0] it makes one request: a
    callback for the next rendering pass, which asks for a callback at the
    pass after, which scrolls to [v] with [behavior: "auto"] (not
    ["smooth"]).  In a window with nothing else pending, no scroll command
    is issued at once or in the first pass, and from the second pass on
    exactly the one command [(v, auto)] has been added. *)
Theorem activation_restores_after_two_passes :
  (forall r scrollY,
      hasMounted r = true ->
      prevIsActive r = false ->
      savedScrollY r = 0 ->
      layoutEffect true scrollY r = (set_prevIsActive true r, [])
      /\ forall w, perform w (snd (layoutEffect true scrollY r)) = w)
  /\ (forall r scrollY cmds,
         hasMounted r = true ->
         prevIsActive r = false ->
         savedScrollY r <> 0 ->
         layoutEffect true scrollY r
         = (set_prevIsActive true r,
            [requestAnimationFrame
               [requestAnimationFrame
                  [scrollTo (savedScrollY r) behavior_auto]]])
         /\ behavior_auto <> behavior_smooth
         /\ scrollCommands
              (perform (mkWindow [] cmds) (snd (layoutEffect true scrollY r)))
            = cmds
         /\ scrollCommands
              (animationFrames
                 1 (perform (mkWindow [] cmds)
                            (snd (layoutEffect true scrollY r))))
            = cmds
         /\ forall n,
              animationFrames
                (2 + n) (perform (mkWindow [] cmds)
                                 (snd (layoutEffect true scrollY r)))
              = mkWindow [] (cmds ++ [(savedScrollY r, behavior_auto)])).
Proof.
  split.
  - intros r scrollY Hm Hp Hz.
    rewrite (layoutEffect_activate r scrollY Hm Hp), Hz. simpl.
    split; [|reflexivity].
    destruct r; simpl in *; subst; reflexivity.
  - intros r scrollY cmds Hm Hp Hnz.
    rewrite (layoutEffect_activate r scrollY Hm Hp).
    apply Z.eqb_neq in Hnz. rewrite Hnz.
    split; [destruct r; simpl in *; subst; reflexivity|].
    split; [discriminate|].
    exact (restore_schedule (savedScrollY r) cmds).
Qed.

Lemma activation_restores_witness :
  layoutEffect true 0 (mkRefs 0 true false false)
  = (mkRefs 0 true true false, [])
  /\ scrollCommands
       (animationFrames
          2 (perform idle (snd (layoutEffect true 0 (mkRefs 150 true false false)))))
     = [(150, behavior_auto)].
Proof.
  split.
  - apply (proj1 activation_restores_after_two_passes
                 (mkRefs 0 true false false) 0); reflexivity.
  - destruct (proj2 activation_restores_after_two_passes
                    (mkRefs 150 true false false) 0 [])
      as (_ & _ & _ & _ & H); [reflexivity | reflexivity | discriminate |].
    exact (f_equal scrollCommands (H 0%nat)).
Defined.

(** C4.  [saveScrollPosition] stores what the window reads and arms the
    one-shot flag, in every state.  Both survive every observation that is
    no deactivation.  The next deactivation, whatever it reads, asks nothing
    of the window, keeps the stored offset and clears the flag; the
    deactivation after that one commits its reading under the usual guard.
    So a deactivation reading 0 right after an explicit save of 300 leaves
    300 saved, and after a reactivation the next deactivation saves what it
    reads. *)
Theorem explicit_save_suppresses_exactly_one_auto_save :
  (forall r y0,
      saveScrollPosition y0 r
      = mkRefs y0 (hasMounted r) (prevIsActive r) true)
  /\ (forall r y0 obs y1,
         no_deactivation (saveScrollPosition y0 r) obs = true ->
         deactivation (observations (saveScrollPosition y0 r) obs) false = true ->
         savedScrollY (observations (saveScrollPosition y0 r) obs) = y0
         /\ skipNextAutoSave (observations (saveScrollPosition y0 r) obs) = true
         /\ layoutEffect false y1 (observations (saveScrollPosition y0 r) obs)
            = (mkRefs y0 true false false, []))
  /\ (forall obs y0 y2,
         no_deactivation (mkRefs y0 true false false) obs = true ->
         deactivation (observations (mkRefs y0 true false false) obs) false = true ->
         layoutEffect false y2 (observations (mkRefs y0 true false false) obs)
         = (mkRefs (if negb (y2 =? 0) || (y0 =? 0) then y2 else y0)
                   true false false, []))
  /\ (forall r y y',
         hasMounted r = true ->
         prevIsActive r = true ->
         savedScrollY (run r [SaveScrollPosition 300; Observe false 0]) = 300
         /\ skipNextAutoSave (run r [SaveScrollPosition 300; Observe false 0])
            = false
         /\ (y' <> 0 ->
             savedScrollY (run r [SaveScrollPosition 300; Observe false 0;
                                  Observe true y; Observe false y']) = y')).
Proof.
  split; [|split; [|split]].
  - intros r y0. reflexivity.
  - intros r y0 obs y1 Hq Hd.
    destruct (observations_frame obs _ Hq) as [Hs Hk].
    simpl in Hs, Hk. split; [exact Hs|]. split; [exact Hk|].
    unfold deactivation in Hd.
    apply andb_true_iff in Hd. destruct Hd as [Hm Hd].
    apply andb_true_iff in Hd. destruct Hd as [Hp _].
    rewrite (layoutEffect_deactivate_skipped _ y1 Hm Hp Hk), Hs.
    reflexivity.
  - intros obs y0 y2 Hq Hd.
    destruct (observations_frame obs _ Hq) as [Hs Hk].
    simpl in Hs, Hk.
    unfold deactivation in Hd.
    apply andb_true_iff in Hd. destruct Hd as [Hm Hd].
    apply andb_true_iff in Hd. destruct Hd as [Hp _].
    rewrite (layoutEffect_deactivate_saving _ y2 Hm Hp Hk), Hs.
    reflexivity.
  - intros r y y' Hm Hp. destruct r as [saved mounted prev skip].
    simpl in Hm, Hp. subst. unfold run; simpl.
    repeat split. intros Hnz. apply Z.eqb_neq in Hnz.
    unfold layoutEffect; simpl. rewrite Hnz. reflexivity.
Qed.

Lemma explicit_save_suppresses_witness :
  layoutEffect false 0
               (observations (saveScrollPosition 300 (mkRefs 0 true true false))
                             [(true, 300)])
  = (mkRefs 300 true false false, [])
  /\ layoutEffect false 120
                  (observations (mkRefs 300 true false false) [(true, 0)])
     = (mkRefs 120 true false false, [])
  /\ savedScrollY (run (mkRefs 0 true true false)
                       [SaveScrollPosition 300; Observe false 0;
                        Observe true 0; Observe false 120]) = 120.
Proof.
  split; [|split].
  - apply (proj1 (proj2 explicit_save_suppresses_exactly_one_auto_save)
                 (mkRefs 0 true true false) 300 [(true, 300)] 0); reflexivity.
  - apply (proj1 (proj2 (proj2 explicit_save_suppresses_exactly_one_auto_save))
                 [(true, 0)] 300 120); reflexivity.
  - apply (proj2 (proj2 (proj2 explicit_save_suppresses_exactly_one_auto_save))
                 (mkRefs 0 true true false) 0 120);
      [reflexivity | reflexivity | discriminate].
Defined.

(** C9.  An activation changes neither the saved offset nor the one-shot
    flag.  So the saved offset [v <> 0] is not used up by a restore: after
    any observations that read offset 0, the saved offset is still [v] and
    the next activation makes the restore request for [v] again; the plain
    cycle activate, deactivate at offset 0, activate is one instance.  And
    the flag armed by [saveScrollPosition] stays armed through every
    observation that is no deactivation (activations, unchanged flags, the
    first observation), and the next deactivation clears it. *)
Theorem activation_keeps_saved_offset_and_flag :
  (forall r scrollY,
      activation r true = true ->
      savedScrollY (fst (layoutEffect true scrollY r)) = savedScrollY r
      /\ skipNextAutoSave (fst (layoutEffect true scrollY r))
         = skipNextAutoSave r)
  /\ (forall r v scrollY obs scrollY',
         activation r true = true ->
         savedScrollY r = v ->
         v <> 0 ->
         Forall (fun o => snd o = 0) obs ->
         activation (observations (fst (layoutEffect true scrollY r)) obs) true
         = true ->
         snd (layoutEffect true scrollY r) = restore v
         /\ savedScrollY (observations (fst (layoutEffect true scrollY r)) obs)
            = v
         /\ snd (layoutEffect
                   true scrollY'
                   (observations (fst (layoutEffect true scrollY r)) obs))
            = restore v)
  /\ (forall r v scrollY scrollY',
         activation r true = true ->
         savedScrollY r = v ->
         v <> 0 ->
         snd (layoutEffect true scrollY'
                           (observations r [(true, scrollY); (false, 0)]))
         = restore v)
  /\ (forall r y0 obs,
         no_deactivation (saveScrollPosition y0 r) obs = true ->
         skipNextAutoSave (observations (saveScrollPosition y0 r) obs) = true)
  /\ (forall r y0 obs y1,
         no_deactivation (saveScrollPosition y0 r) obs = true ->
         deactivation (observations (saveScrollPosition y0 r) obs) false = true ->
         skipNextAutoSave
           (fst (layoutEffect false y1
                              (observations (saveScrollPosition y0 r) obs)))
         = false).
Proof.
  assert (Hact : forall r, activation r true = true ->
                           hasMounted r = true /\ prevIsActive r = false).
  { intros r Ha. unfold activation in Ha.
    apply andb_true_iff in Ha. destruct Ha as [Hm Ha].
    apply andb_true_iff in Ha. destruct Ha as [Hp _].
    apply negb_true_iff in Hp. auto. }
  assert (Hagain : forall r v scrollY obs scrollY',
             activation r true = true ->
             savedScrollY r = v ->
             v <> 0 ->
             Forall (fun o => snd o = 0) obs ->
             activation (observations (fst (layoutEffect true scrollY r)) obs)
                        true = true ->
             snd (layoutEffect true scrollY r) = restore v
             /\ savedScrollY
                  (observations (fst (layoutEffect true scrollY r)) obs) = v
             /\ snd (layoutEffect
                       true scrollY'
                       (observations (fst (layoutEffect true scrollY r)) obs))
                = restore v).
  { intros r v scrollY obs scrollY' Ha Hv Hnz Hz Ha'.
    destruct (Hact r Ha) as [Hm Hp].
    destruct (Hact _ Ha') as [Hm' Hp'].
    assert (Hkeep : savedScrollY
                      (observations (fst (layoutEffect true scrollY r)) obs)
                    = v).
    { rewrite zero_readings_keep; auto;
        rewrite (layoutEffect_activate r scrollY Hm Hp); simpl; congruence. }
    rewrite (layoutEffect_activate _ scrollY' Hm' Hp'), Hkeep.
    rewrite (layoutEffect_activate r scrollY Hm Hp), Hv.
    apply Z.eqb_neq in Hnz. rewrite Hnz. simpl. auto. }
  split; [|split; [|split; [|split]]].
  - intros r scrollY Ha. destruct (Hact r Ha) as [Hm Hp].
    rewrite (layoutEffect_activate r scrollY Hm Hp). simpl. auto.
  - exact Hagain.
  - intros r v scrollY scrollY' Ha Hv Hnz.
    change (observations r [(true, scrollY); (false, 0)])
      with (observations (fst (layoutEffect true scrollY r)) [(false, 0)]).
    apply (Hagain r v scrollY [(false, 0)] scrollY' Ha Hv Hnz).
    + repeat constructor.
    + destruct (Hact r Ha) as [Hm Hp].
      rewrite (layoutEffect_activate r scrollY Hm Hp).
      unfold observations; simpl.
      destruct (observation_records_flag
                  (mkRefs (savedScrollY r) true true (skipNextAutoSave r))
                  false 0) as [Hm1 Hp1].
      unfold activation. rewrite Hm1, Hp1. reflexivity.
  - intros r y0 obs Hq.
    destruct (observations_frame obs _ Hq) as [_ Hk]. exact Hk.
  - intros r y0 obs y1 Hq Hd.
    destruct (observations_frame obs _ Hq) as [_ Hk]. simpl in Hk.
    unfold deactivation in Hd.
    apply andb_true_iff in Hd. destruct Hd as [Hm Hd].
    apply andb_true_iff in Hd. destruct Hd as [Hp _].
    rewrite (layoutEffect_deactivate_skipped _ y1 Hm Hp Hk). reflexivity.
Qed.

Lemma activation_keeps_witness :
  snd (layoutEffect true 0
                    (observations (mkRefs 150 true false false)
                                  [(true, 150); (false, 0)]))
  = restore 150
  /\ skipNextAutoSave
       (observations (saveScrollPosition 300 (mkRefs 0 true false false))
                     [(true, 0); (true, 300)]) = true
  /\ skipNextAutoSave
       (fst (layoutEffect
               false 0
               (observations (saveScrollPosition 300 (mkRefs 0 true false false))
                             [(true, 0); (true, 300)]))) = false
  /\ savedScrollY (fst (layoutEffect true 9 (mkRefs 150 true false true))) = 150
  /\ snd (layoutEffect
            true 0
            (observations (fst (layoutEffect true 0 (mkRefs 150 true false false)))
                          [(true, 0); (false, 0); (false, 0)]))
     = restore 150.
Proof.
  split; [|split; [|split; [|split]]].
  - apply (proj1 (proj2 (proj2 activation_keeps_saved_offset_and_flag))
                 (mkRefs 150 true false false) 150 150 0);
      [reflexivity | reflexivity | discriminate].
  - apply (proj1 (proj2 (proj2 (proj2 activation_keeps_saved_offset_and_flag)))
                 (mkRefs 0 true false false) 300 [(true, 0); (true, 300)]).
    reflexivity.
  - apply (proj2 (proj2 (proj2 (proj2 activation_keeps_saved_offset_and_flag)))
                 (mkRefs 0 true false false) 300 [(true, 0); (true, 300)] 0);
      reflexivity.
  - apply (proj1 activation_keeps_saved_offset_and_flag
                 (mkRefs 150 true false true) 9). reflexivity.
  - apply (proj1 (proj2 activation_keeps_saved_offset_and_flag)
                 (mkRefs 150 true false false) 150 0
                 [(true, 0); (false, 0); (false, 0)] 0);
      [reflexivity | reflexivity | discriminate | repeat constructor
       | reflexivity].
Defined.

End ScrollRestorationClaims.

(* ===================================================================== *)
(** * Properties of the people API *)
(* ===================================================================== *)

Section StringFacts.

Import PeopleApi.
Local Open Scope string_scope.

Lemma prefix_iff_append :
  forall p s, String.prefix p s = true <-> exists rest, s = p ++ rest.
Proof.
  induction p as [|a p IH]; intros s.
  - split; [intros _; exists s; reflexivity | destruct s; reflexivity].
  - destruct s as [|b s]; simpl.
    + split; [discriminate | intros [rest H]; discriminate].
    + destruct (ascii_dec a b) as [->|Hab].
      * rewrite IH. split; intros [rest H]; exists rest.
        -- rewrite H. reflexivity.
        -- injection H; auto.
      * split; [discriminate|].
        intros [rest H]. injection H as Hb _. congruence.
Qed.

(** [includes] decides the substring relation. *)
Lemma includes_iff_substring :
  forall s search, includes s search = true <-> substring search s.
Proof.
  unfold substring. intros s search. split.
  - induction s as [|c s IH]; cbn [includes]; rewrite orb_true_iff.
    + intros [H|H]; [|discriminate].
      apply prefix_iff_append in H. destruct H as [rest H].
      exists "", rest. exact H.
    + intros [H|H].
      * apply prefix_iff_append in H. destruct H as [rest H].
        exists "", rest. exact H.
      * destruct (IH H) as (before & after & Hs).
        exists (String c before), after. rewrite Hs. reflexivity.
  - intros (before & after & Hs). revert s Hs.
    induction before as [|c before IH]; intros s Hs.
    + simpl in Hs.
      assert (Hp : String.prefix search s = true)
        by (apply prefix_iff_append; exists after; exact Hs).
      destruct s; cbn [includes]; rewrite Hp; reflexivity.
    + subst s. cbn [includes append]. rewrite (IH _ eq_refl). apply orb_true_r.
Qed.

(** [endsWith] decides the suffix relation. *)
Lemma endsWith_iff_suffix :
  forall s search,
    endsWith s search = true <-> exists before, s = before ++ search.
Proof.
  intros s search. split.
  - induction s as [|c s IH]; cbn [endsWith]; rewrite orb_true_iff.
    + intros [H|H]; [|discriminate].
      apply String.eqb_eq in H. exists "". exact H.
    + intros [H|H].
      * apply String.eqb_eq in H. exists "". exact H.
      * destruct (IH H) as [before Hs].
        exists (String c before). rewrite Hs. reflexivity.
  - intros [before Hs]. revert s Hs.
    induction before as [|c before IH]; intros s Hs.
    + simpl in Hs. subst s.
      destruct search; cbn [endsWith]; rewrite String.eqb_refl; reflexivity.
    + subst s. cbn [endsWith append]. rewrite (IH _ eq_refl).
      apply orb_true_r.
Qed.

(** The test of the handler is the union of the five substrings. *)
Lemma isBot_iff_botLike :
  forall u, isBot u = true <-> botLike u.
Proof.
  intros u. unfold isBot, botLike.
  rewrite !orb_true_iff, !includes_iff_substring. tauto.
Qed.

End StringFacts.

Section MapFacts.

Import PeopleApi.

Lemma map_get_In :
  forall m k v, map_get m k = Some v -> In (k, v) m.
Proof.
  induction m as [|[k0 v0] m IH]; intros k v H; simpl in *.
  - discriminate.
  - destruct (String.eqb_spec k0 k) as [->|Hne].
    + injection H as ->. left. reflexivity.
    + right. apply IH. exact H.
Qed.

Lemma map_get_None :
  forall m k, map_get m k = None <-> ~ In k (map fst m).
Proof.
  induction m as [|[k0 v0] m IH]; intros k; simpl.
  - tauto.
  - destruct (String.eqb_spec k0 k) as [->|Hne].
    + split; [discriminate | intros H; exfalso; apply H; auto].
    + rewrite IH. tauto.
Qed.

Lemma In_map_get :
  forall m k v, NoDup (map fst m) -> In (k, v) m -> map_get m k = Some v.
Proof.
  induction m as [|[k0 v0] m IH]; intros k v Hnd Hin; simpl in *.
  - contradiction.
  - inversion Hnd as [|? ? Hk0 Hnd']; subst.
    destruct Hin as [Heq|Hin].
    + injection Heq as -> ->. rewrite String.eqb_refl. reflexivity.
    + destruct (String.eqb_spec k0 k) as [->|Hne].
      * exfalso. apply Hk0. apply (in_map fst) in Hin. exact Hin.
      * apply IH; assumption.
Qed.

Lemma map_set_fresh :
  forall m k v, ~ In k (map fst m) -> map_set m k v = m ++ [(k, v)].
Proof.
  induction m as [|[k0 v0] m IH]; intros k v Hk; simpl in *.
  - reflexivity.
  - destruct (String.eqb_spec k0 k) as [->|Hne].
    + exfalso. apply Hk. auto.
    + rewrite IH; [reflexivity | tauto].
Qed.

Lemma map_set_keys :
  forall m k v, In k (map fst m) -> map fst (map_set m k v) = map fst m.
Proof.
  induction m as [|[k0 v0] m IH]; intros k v Hk; simpl in *.
  - contradiction.
  - destruct (String.eqb_spec k0 k) as [->|Hne].
    + reflexivity.
    + simpl. rewrite IH; [reflexivity|]. destruct Hk; [contradiction|assumption].
Qed.

Lemma In_map_set :
  forall m k v k' v',
    NoDup (map fst m) ->
    In (k', v') (map_set m k v)
    <-> (k' = k /\ v' = v) \/ (k' <> k /\ In (k', v') m).
Proof.
  induction m as [|[k0 v0] m IH]; intros k v k' v' Hnd; simpl in *.
  - split.
    + intros [H|[]]. injection H as <- <-. auto.
    + intros [[-> ->]|[_ []]]. auto.
  - inversion Hnd as [|? ? Hk0 Hnd']; subst.
    destruct (String.eqb_spec k0 k) as [->|Hne]; simpl.
    + split.
      * intros [H|H]; [injection H as <- <-; auto|].
        right. split; [|auto]. intros ->. apply Hk0.
        apply (in_map fst) in H. exact H.
      * intros [[-> ->]|[Hne [H|H]]]; auto.
        injection H as <- _. congruence.
    + rewrite (IH k v k' v' Hnd'). split.
      * intros [H|[H|[Hn H]]]; auto.
        injection H as <- <-. right. split; auto.
      * intros [H|[Hn [H|H]]]; auto.
Qed.

End MapFacts.

Section MergeFacts.

Import PeopleApi.

Lemma Merged_empty : Merged [] [].
Proof.
  constructor; simpl; try contradiction. constructor.
Qed.

(** An entry with a bot-like username changes nothing. *)
Lemma Merged_skip :
  forall m seen e,
    Merged m seen -> isBot (username e) = true -> Merged m (seen ++ [e]).
Proof.
  intros m seen e [Hnd Hs Hmax Hc] Hbot. constructor.
  - exact Hnd.
  - intros k v Hin. destruct (Hs k v Hin) as (Hu & Hv & Hb).
    repeat split; auto. apply in_or_app. auto.
  - intros k v e' Hin He' Hu.
    apply in_app_or in He'. destruct He' as [He'|[<-|[]]].
    + eapply Hmax; eauto.
    + destruct (Hs k v Hin) as (_ & _ & Hb). congruence.
  - intros e' He' Hb.
    apply in_app_or in He'. destruct He' as [He'|[<-|[]]].
    + auto.
    + congruence.
Qed.

(** The entry replaces what the map holds for its username, or is added. *)
Lemma Merged_set :
  forall m seen e,
    Merged m seen ->
    isBot (username e) = false ->
    (forall existing,
        map_get m (username e) = Some existing ->
        total_points existing <= total_points e) ->
    Merged (map_set m (username e) e) (seen ++ [e]).
Proof.
  intros m seen e [Hnd Hs Hmax Hc] Hbot Hgt. constructor.
  - destruct (in_dec string_dec (username e) (map fst m)) as [Hin|Hout].
    + rewrite map_set_keys; assumption.
    + rewrite map_set_fresh by assumption.
      rewrite map_app. simpl. apply NoDup_app; auto.
      * repeat constructor. simpl. tauto.
      * intros k Hk [<-|[]]. contradiction.
  - intros k v Hin. apply In_map_set in Hin; [|assumption].
    destruct Hin as [[-> ->]|[_ Hin]].
    + repeat split; auto. apply in_or_app. simpl. auto.
    + destruct (Hs k v Hin) as (Hu & Hv & Hb).
      repeat split; auto. apply in_or_app. auto.
  - intros k v e' Hin He' Hu. apply In_map_set in Hin; [|assumption].
    apply in_app_or in He'.
    destruct Hin as [[-> ->]|[Hne Hin]]; destruct He' as [He'|[<-|[]]].
    + destruct (Hc e' He') as [v Hv]; [congruence|].
      rewrite Hu in Hv.
      pose proof (Hmax _ _ _ Hv He' Hu) as Hle.
      pose proof (Hgt v (In_map_get _ _ _ Hnd Hv)). lia.
    + lia.
    + eapply Hmax; eauto.
    + congruence.
  - intros e' He' Hb. apply in_app_or in He'.
    destruct (string_dec (username e') (username e)) as [Heq|Hne].
    + exists e. apply In_map_set; [assumption|]. left. auto.
    + destruct He' as [He'|[<-|[]]]; [|congruence].
      destruct (Hc e' He' Hb) as [v Hv].
      exists v. apply In_map_set; [assumption|]. right. auto.
Qed.

(** The entry loses against what the map holds for its username. *)
Lemma Merged_keep :
  forall m seen e existing,
    Merged m seen ->
    map_get m (username e) = Some existing ->
    total_points e <= total_points existing ->
    Merged m (seen ++ [e]).
Proof.
  intros m seen e existing [Hnd Hs Hmax Hc] Hget Hle.
  pose proof (map_get_In _ _ _ Hget) as Hin0. constructor.
  - exact Hnd.
  - intros k v Hin. destruct (Hs k v Hin) as (Hu & Hv & Hb).
    repeat split; auto. apply in_or_app. auto.
  - intros k v e' Hin He' Hu.
    apply in_app_or in He'. destruct He' as [He'|[<-|[]]].
    + eapply Hmax; eauto.
    + subst k. rewrite (In_map_get _ _ _ Hnd Hin) in Hget.
      injection Hget as ->. exact Hle.
  - intros e' He' Hb.
    apply in_app_or in He'. destruct He' as [He'|[<-|[]]].
    + auto.
    + exists existing. exact Hin0.
Qed.

Lemma Merged_mergeEntry :
  forall m seen e, Merged m seen -> Merged (mergeEntry m e) (seen ++ [e]).
Proof.
  intros m seen e HM. unfold mergeEntry.
  destruct (isBot (username e)) eqn:Hbot.
  - apply Merged_skip; assumption.
  - destruct (map_get m (username e)) as [existing|] eqn:Hget.
    + destruct (total_points e >? total_points existing) eqn:Hgt.
      * apply Merged_set; auto. intros x Hx.
        assert (x = existing) by congruence. subst x.
        apply Z.gtb_lt in Hgt. lia.
      * apply (Merged_keep m seen e existing); auto.
        rewrite Z.gtb_ltb in Hgt. apply Z.ltb_ge in Hgt. exact Hgt.
    + apply Merged_set; auto. intros x Hx. congruence.
Qed.

Lemma Merged_fold :
  forall es m seen,
    Merged m seen -> Merged (fold_left mergeEntry es m) (seen ++ es).
Proof.
  induction es as [|e es IH]; intros m seen HM; simpl.
  - rewrite app_nil_r. exact HM.
  - replace (seen ++ e :: es) with ((seen ++ [e]) ++ es)
      by (rewrite <- app_assoc; reflexivity).
    apply IH. apply Merged_mergeEntry. exact HM.
Qed.

End MergeFacts.

Section FileFacts.

Import PeopleApi.

(** The later of a timestamp and the ones of the parsed files, as the loop
    computes it. *)
Lemma latest_fold :
  forall files st,
    latestUpdatedAt (fold_left processFile files st)
    = fold_left (fun latest data =>
                   if updatedAt data >? latest then updatedAt data else latest)
                (parsedFiles files) (latestUpdatedAt st).
Proof.
  induction files as [|[file c] files IH]; intros st; simpl.
  - reflexivity.
  - rewrite IH. destruct c; simpl; reflexivity.
Qed.

Lemma contributors_fold :
  forall files st,
    allContributors (fold_left processFile files st)
    = fold_left mergeEntry (allEntries files) (allContributors st).
Proof.
  induction files as [|[file c] files IH]; intros st; simpl.
  - reflexivity.
  - rewrite IH. unfold allEntries.
    destruct c; simpl; try reflexivity; rewrite fold_left_app; reflexivity.
Qed.

Lemma console_fold :
  forall files st,
    console (fold_left processFile files st) = console st ++ readErrors files.
Proof.
  induction files as [|[file c] files IH]; intros st; simpl.
  - rewrite app_nil_r. reflexivity.
  - rewrite IH. destruct c; simpl; try rewrite <- app_assoc; reflexivity.
Qed.

Lemma latest_bounds :
  forall datas start,
    let latest :=
      fold_left (fun latest data =>
                   if updatedAt data >? latest then updatedAt data else latest)
                datas start in
    start <= latest
    /\ (forall data, In data datas -> updatedAt data <= latest)
    /\ (latest = start \/ exists data, In data datas /\ updatedAt data = latest).
Proof.
  induction datas as [|d datas IH]; intros start; simpl.
  - repeat split; try lia; try tauto.
  - destruct (IH (if updatedAt d >? start then updatedAt d else start))
      as (Hle & Hub & Hattained).
    destruct (updatedAt d >? start) eqn:Hgt.
    + apply Z.gtb_lt in Hgt. repeat split.
      * lia.
      * intros data [<-|Hin]; auto.
      * right. destruct Hattained as [->|(data & Hin & Heq)]; eauto.
    + rewrite Z.gtb_ltb in Hgt. apply Z.ltb_ge in Hgt. repeat split.
      * lia.
      * intros data [<-|Hin]; [lia|auto].
      * destruct Hattained as [->|(data & Hin & Heq)]; eauto.
Qed.

(** Files that cannot be read or parsed contribute nothing. *)
Lemma parsedFiles_skipped :
  forall files,
    parsedFiles (filter (fun file => negb (skipped (snd file))) files)
    = parsedFiles files.
Proof.
  induction files as [|[file c] files IH]; simpl.
  - reflexivity.
  - destruct c; simpl; rewrite IH; reflexivity.
Qed.

Lemma parsedFiles_app :
  forall files files',
    parsedFiles (files ++ files') = parsedFiles files ++ parsedFiles files'.
Proof.
  intros files files'. unfold parsedFiles. apply flat_map_app.
Qed.

Lemma readErrors_readable :
  forall files,
    readErrors (filter (fun file => readable (snd file)) files) = [].
Proof.
  induction files as [|[file c] files IH]; simpl.
  - reflexivity.
  - destruct c; simpl; exact IH.
Qed.

Lemma leaderboardFiles_filter :
  forall (keep : FileContent -> bool) dir,
    leaderboardFiles (filter (fun file => keep (snd file)) dir)
    = filter (fun file => keep (snd file)) (leaderboardFiles dir).
Proof.
  intros keep. induction dir as [|[file c] dir IH]; simpl.
  - reflexivity.
  - unfold leaderboardFiles in *. simpl.
    destruct (keep c) eqn:Hr, (isLeaderboardFile file) eqn:Hl; simpl;
      rewrite ?Hr, ?Hl, IH; reflexivity.
Qed.

(** The merge depends on the parsed files only. *)
Lemma mergeFiles_parsed :
  forall files files',
    parsedFiles files = parsedFiles files' ->
    allContributors (mergeFiles files) = allContributors (mergeFiles files')
    /\ latestUpdatedAt (mergeFiles files) = latestUpdatedAt (mergeFiles files').
Proof.
  intros files files' Heq. unfold mergeFiles.
  rewrite !contributors_fold, !latest_fold. unfold allEntries.
  rewrite Heq. auto.
Qed.

Lemma Merged_mergeFiles :
  forall files, Merged (allContributors (mergeFiles files)) (allEntries files).
Proof.
  intros files. unfold mergeFiles. rewrite contributors_fold.
  apply (Merged_fold (allEntries files) [] []). exact Merged_empty.
Qed.

End FileFacts.

Section SortFacts.

Import PeopleApi.

Lemma insert_Permutation :
  forall cmp x l, Permutation (insert cmp x l) (x :: l).
Proof.
  intros cmp x l. induction l as [|y l IH]; simpl.
  - apply Permutation_refl.
  - destruct (cmp x y <=? 0).
    + apply Permutation_refl.
    + eapply perm_trans; [apply perm_skip, IH | apply perm_swap].
Qed.

Lemma sort_Permutation :
  forall cmp l, Permutation (sort cmp l) l.
Proof.
  intros cmp l. induction l as [|x l IH]; simpl.
  - apply perm_nil.
  - eapply perm_trans; [apply insert_Permutation | apply perm_skip, IH].
Qed.

Lemma insert_sorted :
  forall x l,
    StronglySorted (fun a b => total_points b <= total_points a) l ->
    StronglySorted (fun a b => total_points b <= total_points a)
                   (insert compareFn x l).
Proof.
  intros x l Hl. induction Hl as [|y l Hl IH Hy]; simpl.
  - repeat constructor.
  - unfold compareFn at 1. destruct (total_points y - total_points x <=? 0) eqn:Hc.
    + apply Z.leb_le in Hc. constructor.
      * constructor; assumption.
      * constructor; [lia|].
        rewrite Forall_forall in *. intros z Hz. specialize (Hy z Hz). lia.
    + apply Z.leb_gt in Hc. constructor.
      * exact IH.
      * rewrite Forall_forall in *. intros z Hz.
        apply (Permutation_in _ (insert_Permutation compareFn x l)) in Hz.
        destruct Hz as [<-|Hz]; [lia|auto].
Qed.

Lemma sort_sorted :
  forall l,
    StronglySorted (fun a b => total_points b <= total_points a)
                   (sort compareFn l).
Proof.
  induction l as [|x l IH]; simpl.
  - constructor.
  - apply insert_sorted. exact IH.
Qed.

(** The sort is stable: entries with the same points keep their order. *)
Lemma insert_stable :
  forall p x l,
    filter (fun e => total_points e =? p) (insert compareFn x l)
    = filter (fun e => total_points e =? p) (x :: l).
Proof.
  intros p x l. induction l as [|y l IH]; simpl.
  - reflexivity.
  - unfold compareFn at 1.
    destruct (total_points y - total_points x <=? 0) eqn:Hc.
    + reflexivity.
    + apply Z.leb_gt in Hc. simpl in *. rewrite IH.
      destruct (total_points x =? p) eqn:Hx, (total_points y =? p) eqn:Hy;
        try reflexivity.
      apply Z.eqb_eq in Hx, Hy. lia.
Qed.

Lemma sort_stable :
  forall p l,
    filter (fun e => total_points e =? p) (sort compareFn l)
    = filter (fun e => total_points e =? p) l.
Proof.
  intros p l. induction l as [|x l IH]; simpl.
  - reflexivity.
  - rewrite insert_stable. simpl. rewrite IH. reflexivity.
Qed.

End SortFacts.

Section PeopleApiClaims.

Import PeopleApi.

Lemma In_map_values :
  forall (m : ContributorMap) v, In v (map_values m) <-> exists k, In (k, v) m.
Proof.
  intros m v. unfold map_values. rewrite in_map_iff. split.
  - intros [[k v'] [Hv Hin]]. simpl in Hv. subst. eauto.
  - intros [k Hin]. exists (k, v). auto.
Qed.

Lemma GET_sample :
  GET (Some sampleDirectory)
  = (Ok200 1800000000000 [contributor "carol" 30; contributor "alice" 10],
     [ErrorReading "month.json" SyntaxError]).
Proof. vm_compute. reflexivity. Qed.

(** With no file to read the handler answers [updatedAt: 0]. *)
Lemma GET_empty : GET (Some []) = (Ok200 0 [], []).
Proof. reflexivity. Qed.

(** C7, as stated, fails: for the one readable file of [earlyDirectory],
    whose [updatedAt] is [-1], the handler answers [updatedAt: 0], which is
    not the [updatedAt] of any file. *)
Lemma updatedAt_not_most_recent_counterexample :
  forallb (fun file => readable (snd file)) earlyDirectory = true
  /\ leaderboardFiles earlyDirectory = earlyDirectory
  /\ fst (GET (Some earlyDirectory)) = Ok200 0 [contributor "alice" 10]
  /\ ~ mostRecent 0 (parsedFiles (leaderboardFiles earlyDirectory)).
Proof.
  repeat split; try (vm_compute; reflexivity).
  intros [(data & Hin & Hzero) _]. simpl in Hin.
  destruct Hin as [<-|[]]. discriminate.
Qed.

(** C7, amended.  The handler answers with a list of people that holds
    exactly one entry for each username that occurs in a parsed leaderboard
    file and has none of the substrings "bot", "[bot]", "dependabot",
    "renovate", "github-actions"; the entry kept for a username is one of
    the files' entries for it and no entry for that username in any file has
    more [total_points].  The answer's [updatedAt] is the largest of 0 and
    the [updatedAt] of the parsed files: it is the most recent [updatedAt]
    among the files as soon as one of them is not negative, and 0
    otherwise. *)
Theorem GET_people_deduplicated_highest_score :
  forall dir,
    exists updated people,
      fst (GET (Some dir)) = Ok200 updated people
      /\ NoDup (map username people)
      /\ (forall u,
             In u (map username people)
             <-> (exists e, In e (allEntries (leaderboardFiles dir))
                            /\ username e = u)
                 /\ ~ botLike u)
      /\ (forall p,
             In p people ->
             In p (allEntries (leaderboardFiles dir))
             /\ forall e, In e (allEntries (leaderboardFiles dir)) ->
                          username e = username p ->
                          total_points e <= total_points p)
      /\ 0 <= updated
      /\ (forall data, In data (parsedFiles (leaderboardFiles dir)) ->
                       updatedAt data <= updated)
      /\ (updated = 0
          \/ exists data, In data (parsedFiles (leaderboardFiles dir))
                          /\ updatedAt data = updated)
      /\ ((exists data, In data (parsedFiles (leaderboardFiles dir))
                        /\ 0 <= updatedAt data) ->
          mostRecent updated (parsedFiles (leaderboardFiles dir))).
Proof.
  intros dir. simpl.
  set (files := leaderboardFiles dir).
  set (m := allContributors (mergeFiles files)).
  pose proof (Merged_mergeFiles files) as HM. fold m in HM.
  destruct HM as [Hnd Hs Hmax Hc].
  pose proof (sort_Permutation compareFn (map_values m)) as Hperm.
  assert (Hin : forall p, In p (sort compareFn (map_values m))
                          <-> exists k, In (k, p) m).
  { intros p. rewrite <- In_map_values. split; apply Permutation_in;
      [exact Hperm | apply Permutation_sym, Hperm]. }
  assert (Hkeys : map username (map_values m) = map fst m).
  { unfold map_values. rewrite map_map. apply map_ext_in.
    intros [k v] Hkv. simpl. apply (Hs k v Hkv). }
  eexists _, _. split; [reflexivity|]. split; [|split; [|split]].
  - apply (Permutation_NoDup (l := map fst m)); [|exact Hnd].
    rewrite <- Hkeys. apply Permutation_map, Permutation_sym, Hperm.
  - intros u. rewrite in_map_iff. split.
    + intros (p & Hu & Hp). apply Hin in Hp. destruct Hp as [k Hk].
      destruct (Hs k p Hk) as (Hname & Hseen & Hbot).
      split; [exists p; auto|].
      rewrite <- isBot_iff_botLike. congruence.
    + intros [(e & He & Hu) Hbot].
      assert (Hb : isBot (username e) = false).
      { destruct (isBot (username e)) eqn:Hb; [|reflexivity].
        exfalso. apply Hbot. rewrite <- Hu. apply isBot_iff_botLike, Hb. }
      destruct (Hc e He Hb) as [v Hv].
      exists v. split; [|apply Hin; eauto].
      rewrite <- Hu. apply (Hs _ _ Hv).
  - intros p Hp. apply Hin in Hp. destruct Hp as [k Hk].
    destruct (Hs k p Hk) as (Hname & Hseen & _).
    split; [exact Hseen|]. intros e He Hu.
    apply (Hmax k p e Hk He). congruence.
  - unfold mergeFiles. rewrite latest_fold. simpl.
    destruct (latest_bounds (parsedFiles files) 0) as (H0 & Hub & Hatt).
    split; [exact H0|]. split; [exact Hub|]. split; [exact Hatt|].
    intros (data & Hdata & Hpos). split; [|exact Hub].
    destruct Hatt as [Hz|Hex]; [|exact Hex].
    exists data. split; [exact Hdata|].
    specialize (Hub data Hdata). lia.
Qed.

Lemma GET_people_deduplicated_witness :
  mostRecent 1800000000000 (parsedFiles (leaderboardFiles sampleDirectory)).
Proof.
  destruct (GET_people_deduplicated_highest_score sampleDirectory)
    as (updated & people & Hget & _ & _ & _ & _ & _ & _ & Hrecent).
  injection Hget as <- _.
  apply Hrecent. eexists. split; [left; reflexivity|]. discriminate.
Defined.

(** A file whose second entry has no username: the handler answers with
    the timestamp and the first entry of that file, writes the line for it
    on the console, and goes on with the next file. *)
Lemma GET_broken :
  GET (Some brokenDirectory)
  = (Ok200 50 [contributor "alice" 10; contributor "dave" 3],
     [ErrorReading "week.json" TypeError]).
Proof. vm_compute. reflexivity. Qed.

Lemma parsedFiles_no_throw :
  forall files,
    (forall file data unreached,
        ~ In (file, JsonThenThrows data unreached) files) ->
    parsedFiles (filter (fun file => readable (snd file)) files)
    = parsedFiles files.
Proof.
  induction files as [|[file c] files IH]; intros Hno; simpl.
  - reflexivity.
  - assert (Hrest : forall file data unreached,
               ~ In (file, JsonThenThrows data unreached) files)
      by (intros f d u Hin; apply (Hno f d u); right; exact Hin).
    destruct c; simpl; rewrite ?(IH Hrest); try reflexivity.
    exfalso. apply (Hno file data unreached). left. reflexivity.
Qed.

(** C8.  A file that cannot be read, or whose content does not parse,
    costs one line on the console and nothing else: the contributors and the
    timestamp merged so far are as before, and the loop goes on.  So the
    handler's answer for a directory is its answer for the directory
    without those files, it is never the error answer, the console holds
    one line for each file whose [try] block throws, in order, and a file
    that cannot be read or parsed between other files does not change what
    is merged from the files around it.  The files after it are merged:
    every entry of every file that is read without error, wherever the file
    stands, has its username among the people, with at least its points,
    and the answer's timestamp is not before the file's.

    The [catch] undoes nothing.  A file that parses and then throws in the
    loop over its entries gets a line on the console too, but keeps what it
    has changed: it leaves the map and the timestamp as a file with only
    the entries before the exception leaves them.  When no file does that,
    the answer is the answer for the files read without error. *)
Theorem GET_skips_unreadable_files :
  (forall st file,
      processFile st (file, Unreadable)
      = mkMergeState (allContributors st) (latestUpdatedAt st)
                     (console st ++ [ErrorReading file ReadError])
      /\ processFile st (file, Malformed)
         = mkMergeState (allContributors st) (latestUpdatedAt st)
                        (console st ++ [ErrorReading file SyntaxError]))
  /\ (forall st file data unreached,
         processFile st (file, JsonThenThrows data unreached)
         = mkMergeState
             (allContributors (processFile st (file, Json data)))
             (latestUpdatedAt (processFile st (file, Json data)))
             (console st ++ [ErrorReading file TypeError]))
  /\ (forall dir,
         fst (GET (Some dir))
         = fst (GET (Some (filter (fun file => negb (skipped (snd file))) dir)))
         /\ snd (GET (Some dir)) = readErrors (leaderboardFiles dir)
         /\ snd (GET (Some (filter (fun file => readable (snd file)) dir))) = []
         /\ fst (GET (Some dir)) <> Error500)
  /\ (forall dir,
         (forall file data unreached,
             ~ In (file, JsonThenThrows data unreached) (leaderboardFiles dir)) ->
         fst (GET (Some dir))
         = fst (GET (Some (filter (fun file => readable (snd file)) dir))))
  /\ (forall before file after,
         allContributors (mergeFiles (before ++ (file, Unreadable) :: after))
         = allContributors (mergeFiles (before ++ after))
         /\ latestUpdatedAt (mergeFiles (before ++ (file, Unreadable) :: after))
            = latestUpdatedAt (mergeFiles (before ++ after))
         /\ allContributors (mergeFiles (before ++ (file, Malformed) :: after))
            = allContributors (mergeFiles (before ++ after))
         /\ latestUpdatedAt (mergeFiles (before ++ (file, Malformed) :: after))
            = latestUpdatedAt (mergeFiles (before ++ after)))
  /\ (forall dir file data e,
         In (file, Json data) (leaderboardFiles dir) ->
         In e (entries_or_empty data) ->
         isBot (username e) = false ->
         exists updated people p,
           fst (GET (Some dir)) = Ok200 updated people
           /\ updatedAt data <= updated
           /\ In p people
           /\ username p = username e
           /\ total_points e <= total_points p).
Proof.
  split; [|split; [|split; [|split; [|split]]]].
  - intros st file. split; reflexivity.
  - intros st file data unreached. reflexivity.
  - intros dir. simpl.
    rewrite (leaderboardFiles_filter (fun c => negb (skipped c))).
    rewrite (leaderboardFiles_filter readable).
    destruct (mergeFiles_parsed
                (leaderboardFiles dir)
                (filter (fun file => negb (skipped (snd file)))
                        (leaderboardFiles dir)))
      as [Hc Hl].
    { symmetry. apply parsedFiles_skipped. }
    rewrite <- Hc, <- Hl. split; [reflexivity|]. split; [|split].
    + unfold mergeFiles. rewrite console_fold. reflexivity.
    + unfold mergeFiles. rewrite console_fold. simpl.
      apply readErrors_readable.
    + discriminate.
  - intros dir Hno. simpl.
    rewrite (leaderboardFiles_filter readable).
    destruct (mergeFiles_parsed
                (leaderboardFiles dir)
                (filter (fun file => readable (snd file))
                        (leaderboardFiles dir)))
      as [Hc Hl].
    { symmetry. apply parsedFiles_no_throw. exact Hno. }
    rewrite <- Hc, <- Hl. reflexivity.
  - intros before file after.
    destruct (mergeFiles_parsed (before ++ (file, Unreadable) :: after)
                                (before ++ after)) as [Hc Hl].
    { rewrite !parsedFiles_app. reflexivity. }
    destruct (mergeFiles_parsed (before ++ (file, Malformed) :: after)
                                (before ++ after)) as [Hc' Hl'].
    { rewrite !parsedFiles_app. reflexivity. }
    auto.
  - intros dir file data e Hfile He Hbot. simpl.
    set (files := leaderboardFiles dir) in *.
    assert (Hdata : In data (parsedFiles files)).
    { unfold parsedFiles. apply in_flat_map.
      exists (file, Json data). split; [exact Hfile | left; reflexivity]. }
    assert (Hseen : In e (allEntries files)).
    { unfold allEntries. apply in_flat_map. exists data. split; assumption. }
    destruct (Merged_mergeFiles files) as [_ Hs Hmax Hc].
    destruct (Hc e Hseen Hbot) as [v Hv].
    destruct (Hs _ _ Hv) as (Hname & _ & _).
    eexists _, _, v. split; [reflexivity|]. split; [|split; [|split]].
    + unfold mergeFiles. rewrite latest_fold.
      apply (latest_bounds (parsedFiles files) (latestUpdatedAt initialState)).
      exact Hdata.
    + apply (Permutation_in _ (Permutation_sym (sort_Permutation _ _))).
      apply In_map_values. exists (username e). exact Hv.
    + exact Hname.
    + apply (Hmax _ _ _ Hv Hseen eq_refl).
Qed.

Lemma GET_skips_unreadable_files_witness :
  fst (GET (Some sampleDirectory))
  = fst (GET (Some (filter (fun file => readable (snd file)) sampleDirectory)))
  /\ exists updated people p,
       fst (GET (Some sampleDirectory)) = Ok200 updated people
       /\ 1800000000000 <= updated
       /\ In p people
       /\ username p = "carol"%string
       /\ 30 <= total_points p.
Proof.
  split.
  - apply (proj1 (proj2 (proj2 (proj2 GET_skips_unreadable_files)))
                 sampleDirectory).
    intros file data unreached Hin. vm_compute in Hin.
    repeat (destruct Hin as [Hin|Hin]; [discriminate|]). exact Hin.
  - apply (proj2 (proj2 (proj2 (proj2 (proj2 GET_skips_unreadable_files))))
                 sampleDirectory "year.json"%string
                 (mkLeaderboardData
                    "year" 1800000000000
                    (Some [contributor "carol" 30;
                           contributor "alice" 4;
                           contributor "robot" 3]))
                 (contributor "carol" 30)).
    + vm_compute. right. right. left. reflexivity.
    + left. reflexivity.
    + reflexivity.
Defined.

(** C10.  In every answer that is not the error answer the people are in
    order of [total_points], highest first: no entry has fewer points than
    an entry after it. *)
Theorem GET_people_sorted_by_points :
  forall publicLeaderboard updated people log,
    GET publicLeaderboard = (Ok200 updated people, log) ->
    StronglySorted (fun a b => total_points b <= total_points a) people.
Proof.
  intros [dir|] updated people log H; simpl in H.
  - injection H as _ <- _. apply sort_sorted.
  - discriminate.
Qed.

Lemma GET_people_sorted_witness :
  StronglySorted (fun a b => total_points b <= total_points a)
                 [contributor "carol" 30; contributor "alice" 10].
Proof.
  apply (GET_people_sorted_by_points
           (Some sampleDirectory) 1800000000000
           [contributor "carol" 30; contributor "alice" 10]
           [ErrorReading "month.json" SyntaxError]).
  vm_compute. reflexivity.
Defined.

End PeopleApiClaims.

(* ===================================================================== *)
(** * Further properties of the scroll restoration hook *)
(* ===================================================================== *)

Section ScrollRestorationMore.

Import ScrollRestoration.

Lemma observations_app :
  forall obs obs' r,
    observations r (obs ++ obs') = observations (observations r obs) obs'.
Proof.
  intros obs obs' r. unfold observations. apply fold_left_app.
Qed.

Lemma renders_consistent :
  forall rs initial scrollY,
    consistent (renders initial scrollY rs)
    /\ refs (renders initial scrollY rs)
       = observations (useScrollRestoration initial) ((initial, scrollY) :: rs).
Proof.
  intros rs initial scrollY.
  induction rs as [|o rs IH] using rev_ind.
  - split; [apply mount_consistent | reflexivity].
  - destruct IH as [Hc Hr].
    destruct (rerender_is_layoutEffect _ (fst o) (snd o) Hc) as [Hc' Heq].
    assert (Hstep : renders initial scrollY (rs ++ [o])
                    = fst (rerender (fst o) (snd o)
                                    (renders initial scrollY rs))).
    { unfold renders. rewrite fold_left_app. reflexivity. }
    rewrite Hstep. split; [exact Hc'|].
    change ((initial, scrollY) :: rs ++ [o])
      with (((initial, scrollY) :: rs) ++ [o]).
    rewrite observations_app, <- Hr.
    apply (f_equal fst) in Heq. exact Heq.
Qed.

(** React runs the effect on the mount and when [isActive] has changed
    since the render before.  Over the whole life of a page this makes no
    difference: after any renders, the refs are what the effect's callback
    gives when it is run on every render, and the next render asks of the
    window what the callback asks. *)
Theorem renders_are_observations :
  forall initial scrollY rs isActive scrollY',
    refs (renders initial scrollY rs)
    = observations (useScrollRestoration initial) ((initial, scrollY) :: rs)
    /\ (refs (fst (rerender isActive scrollY' (renders initial scrollY rs))),
        snd (rerender isActive scrollY' (renders initial scrollY rs)))
       = layoutEffect
           isActive scrollY'
           (observations (useScrollRestoration initial)
                         ((initial, scrollY) :: rs)).
Proof.
  intros initial scrollY rs isActive scrollY'.
  destruct (renders_consistent rs initial scrollY) as [Hc Hr].
  split; [exact Hr|].
  rewrite <- Hr. apply rerender_is_layoutEffect. exact Hc.
Qed.

Lemma observation_keeps_nonzero :
  forall r isActive scrollY,
    savedScrollY r <> 0 ->
    savedScrollY (fst (layoutEffect isActive scrollY r)) <> 0.
Proof.
  intros r isActive scrollY Hnz.
  destruct (deactivation r isActive) eqn:Hd.
  - unfold deactivation in Hd.
    apply andb_true_iff in Hd. destruct Hd as [Hm Hd].
    apply andb_true_iff in Hd. destruct Hd as [Hp Ha].
    apply negb_true_iff in Ha. subst isActive.
    destruct (skipNextAutoSave r) eqn:Hs.
    + rewrite (layoutEffect_deactivate_skipped r scrollY Hm Hp Hs). exact Hnz.
    + rewrite (layoutEffect_deactivate_saving r scrollY Hm Hp Hs). simpl.
      destruct (negb (scrollY =? 0) || (savedScrollY r =? 0)) eqn:Hg;
        [|exact Hnz].
      apply save_guard in Hg. lia.
  - destruct (observation_frame r isActive scrollY Hd) as [Hs _]. congruence.
Qed.

(** Once an offset other than zero is saved, no observation brings the
    saved offset back to zero, whatever the window reads: only an explicit
    [saveScrollPosition] at the top of the page can.  So every later
    activation asks for a restore. *)
Theorem automatic_save_never_resets_to_zero :
  forall r obs scrollY,
    savedScrollY r <> 0 ->
    savedScrollY (observations r obs) <> 0
    /\ (activation (observations r obs) true = true ->
        snd (layoutEffect true scrollY (observations r obs))
        = restore (savedScrollY (observations r obs))).
Proof.
  intros r obs scrollY Hnz.
  assert (Hkeep : savedScrollY (observations r obs) <> 0).
  { revert r Hnz. unfold observations.
    induction obs as [|o obs IH]; intros r Hnz; simpl.
    - exact Hnz.
    - apply IH. apply observation_keeps_nonzero. exact Hnz. }
  split; [exact Hkeep|].
  intros Ha. unfold activation in Ha.
  apply andb_true_iff in Ha. destruct Ha as [Hm Ha].
  apply andb_true_iff in Ha. destruct Ha as [Hp _].
  apply negb_true_iff in Hp.
  rewrite (layoutEffect_activate _ scrollY Hm Hp). simpl.
  apply Z.eqb_neq in Hkeep. rewrite Hkeep. reflexivity.
Qed.

Lemma automatic_save_never_resets_witness :
  savedScrollY (observations (mkRefs 150 true true false)
                             [(false, 0); (true, 0); (false, 0)]) <> 0
  /\ snd (layoutEffect true 0
                       (observations (mkRefs 150 true true false)
                                     [(false, 0); (true, 0); (false, 0)]))
     = restore 150.
Proof.
  destruct (automatic_save_never_resets_to_zero
              (mkRefs 150 true true false)
              [(false, 0); (true, 0); (false, 0)] 0) as [Hnz Hrestore].
  - discriminate.
  - split; [exact Hnz|]. apply Hrestore. reflexivity.
Defined.

(** The saved offset is never made up: after any events it is the offset
    the controller started with, or something the window read at one of the
    events.  For a fresh controller the starting offset is 0. *)
Theorem saved_offset_is_a_reading :
  forall evs r,
    savedScrollY (run r evs) = savedScrollY r
    \/ In (savedScrollY (run r evs)) (readings evs).
Proof.
  unfold run.
  induction evs as [|e evs IH]; intros r; simpl.
  - left. reflexivity.
  - destruct (IH (step r e)) as [Hsame|Hin]; [|right; right; exact Hin].
    rewrite Hsame.
    destruct (Z.eq_dec (savedScrollY (step r e)) (savedScrollY r))
      as [Heq|Hne]; [left; exact Heq|].
    right. left. destruct e as [isActive y|y]; simpl in *.
    + destruct (deactivation r isActive) eqn:Hd.
      * unfold deactivation in Hd.
        apply andb_true_iff in Hd. destruct Hd as [Hm Hd].
        apply andb_true_iff in Hd. destruct Hd as [Hp Ha].
        apply negb_true_iff in Ha. subst isActive.
        destruct (skipNextAutoSave r) eqn:Hs.
        -- rewrite (layoutEffect_deactivate_skipped r y Hm Hp Hs) in Hne.
           simpl in Hne. congruence.
        -- rewrite (layoutEffect_deactivate_saving r y Hm Hp Hs) in *.
           simpl in *.
           destruct (negb (y =? 0) || (savedScrollY r =? 0));
             [reflexivity | congruence].
      * destruct (observation_frame r isActive y Hd) as [Hs _]. congruence.
    + reflexivity.
Qed.

End ScrollRestorationMore.

(* ===================================================================== *)
(** * Further properties of the people API *)
(* ===================================================================== *)

Section PeopleApiMore.

Import PeopleApi.

Lemma string_append_assoc :
  forall a b c : string, ((a ++ b) ++ c = a ++ (b ++ c))%string.
Proof.
  induction a as [|x a IH]; intros b c; simpl.
  - reflexivity.
  - rewrite IH. reflexivity.
Qed.

(** A string that holds [left ++ search ++ right] holds [search]. *)
Lemma includes_inside :
  forall s left search right,
    includes s (left ++ search ++ right) = true -> includes s search = true.
Proof.
  intros s left search right H.
  apply includes_iff_substring in H. apply includes_iff_substring.
  destruct H as (before & after & Hs).
  exists (before ++ left)%string, (right ++ after)%string.
  rewrite Hs, !string_append_assoc. reflexivity.
Qed.

(** Two of the five tests of the handler are covered by the test for "bot":
    an entry is skipped exactly when its username holds "bot", "renovate"
    or "github-actions".  Names such as "abbott" are skipped too. *)
Theorem isBot_three_tests :
  forall username,
    isBot username
    = includes username "bot"
      || includes username "renovate"
      || includes username "github-actions".
Proof.
  intros u. unfold isBot.
  pose proof (includes_inside u "[" "bot" "]") as H1.
  pose proof (includes_inside u "dependa" "bot" "") as H2.
  simpl in H1, H2.
  destruct (includes u "bot").
  - rewrite orb_true_r. reflexivity.
  - destruct (includes u "[bot]"); [discriminate (H1 eq_refl)|].
    destruct (includes u "dependabot"); [discriminate (H2 eq_refl)|].
    reflexivity.
Qed.

(** ** Files the handler does not read *)

Lemma leaderboardFiles_skip :
  forall before file c after,
    isLeaderboardFile file = false ->
    leaderboardFiles (before ++ (file, c) :: after)
    = leaderboardFiles (before ++ after).
Proof.
  intros before file c after H. unfold leaderboardFiles.
  rewrite !filter_app. simpl. rewrite H. reflexivity.
Qed.

(** A directory entry whose name does not end in ".json", and the file
    "recent-activities.json" itself, are never opened: with or without
    them, readable or not, newer or not, the answer and the console are the
    same. *)
Theorem GET_ignores_other_files :
  (forall before c after,
      GET (Some (before ++ ("recent-activities.json"%string, c) :: after))
      = GET (Some (before ++ after)))
  /\ (forall before file c after,
         endsWith file ".json" = false ->
         GET (Some (before ++ (file, c) :: after))
         = GET (Some (before ++ after))).
Proof.
  split.
  - intros before c after. unfold GET.
    rewrite leaderboardFiles_skip; reflexivity.
  - intros before file c after H. unfold GET.
    rewrite leaderboardFiles_skip; [reflexivity|].
    unfold isLeaderboardFile. rewrite H. reflexivity.
Qed.

Lemma GET_ignores_other_files_witness :
  GET (Some ([] ++ ("notes.txt"%string, Unreadable) :: sampleDirectory))
  = GET (Some ([] ++ sampleDirectory)).
Proof.
  apply (proj2 GET_ignores_other_files [] "notes.txt"%string Unreadable
               sampleDirectory).
  reflexivity.
Defined.

(** ** Which entry is kept *)

Lemma firstHighest_later :
  forall p seen e,
    firstHighest p seen ->
    (username e = username p -> total_points e <= total_points p) ->
    firstHighest p (seen ++ [e]).
Proof.
  intros p seen e (before & after & Hs & Hb & Ha) He.
  exists before, (after ++ [e]). split; [|split].
  - rewrite Hs, <- app_assoc. reflexivity.
  - exact Hb.
  - intros e' Hin Hu. apply in_app_or in Hin.
    destruct Hin as [Hin|[<-|[]]]; auto.
Qed.

Lemma firstHighest_mergeEntry :
  forall m seen e,
    Merged m seen ->
    (forall k v, In (k, v) m -> firstHighest v seen) ->
    forall k v, In (k, v) (mergeEntry m e) -> firstHighest v (seen ++ [e]).
Proof.
  intros m seen e HM Hfirst k v Hin.
  pose proof HM as [Hnd Hs Hmax Hc].
  assert (Hold : forall k v,
             In (k, v) m ->
             (username e = k -> total_points e <= total_points v) ->
             firstHighest v (seen ++ [e])).
  { intros k0 v0 Hin0 Hle. apply firstHighest_later; [eauto|].
    intros Hu. apply Hle. destruct (Hs _ _ Hin0) as (Hname & _). congruence. }
  assert (Hnew : (forall e', In e' seen -> username e' = username e ->
                             total_points e' < total_points e) ->
                 firstHighest e (seen ++ [e])).
  { intros Hlt. exists seen, []. split; [reflexivity|]. split; [exact Hlt|].
    intros e' []. }
  unfold mergeEntry in Hin.
  destruct (isBot (username e)) eqn:Hbot.
  - apply (Hold k v Hin). intros Hu.
    destruct (Hs _ _ Hin) as (_ & _ & Hb). congruence.
  - destruct (map_get m (username e)) as [existing|] eqn:Hget.
    + pose proof (map_get_In _ _ _ Hget) as Hex.
      destruct (total_points e >? total_points existing) eqn:Hgt.
      * apply Z.gtb_lt in Hgt.
        apply In_map_set in Hin; [|exact Hnd].
        destruct Hin as [[-> ->]|[Hne Hin]].
        -- apply Hnew. intros e' He' Hu.
           pose proof (Hmax _ _ _ Hex He' Hu). lia.
        -- apply (Hold k v Hin). congruence.
      * rewrite Z.gtb_ltb in Hgt. apply Z.ltb_ge in Hgt.
        apply (Hold k v Hin). intros Hu. subst k.
        rewrite (In_map_get _ _ _ Hnd Hin) in Hget.
        injection Hget as ->. exact Hgt.
    + apply In_map_set in Hin; [|exact Hnd].
      destruct Hin as [[-> ->]|[Hne Hin]].
      * apply Hnew. intros e' He' Hu. exfalso.
        destruct (Hc e' He') as [v Hv]; [congruence|].
        apply map_get_None in Hget. apply Hget.
        rewrite <- Hu. apply (in_map fst) in Hv. exact Hv.
      * apply (Hold k v Hin). congruence.
Qed.

Lemma firstHighest_fold :
  forall es m seen,
    Merged m seen ->
    (forall k v, In (k, v) m -> firstHighest v seen) ->
    forall k v, In (k, v) (fold_left mergeEntry es m) ->
                firstHighest v (seen ++ es).
Proof.
  induction es as [|e es IH]; intros m seen HM Hfirst k v Hin; simpl in *.
  - rewrite app_nil_r. eauto.
  - replace (seen ++ e :: es) with ((seen ++ [e]) ++ es)
      by (rewrite <- app_assoc; reflexivity).
    apply (IH (mergeEntry m e) (seen ++ [e])) with (k := k).
    + apply Merged_mergeEntry. exact HM.
    + apply firstHighest_mergeEntry; assumption.
    + exact Hin.
Qed.

(** The people of an answer are the values of the merged map. *)
Lemma In_people :
  forall dir p,
    In p (peopleOf (fst (GET (Some dir))))
    <-> exists k, In (k, p) (allContributors (mergeFiles (leaderboardFiles dir))).
Proof.
  intros dir p. simpl. rewrite <- In_map_values.
  split; apply Permutation_in;
    [apply sort_Permutation | apply Permutation_sym, sort_Permutation].
Qed.

(** When several entries of the files have the same username, the answer
    holds the first one, in the order the files are read, among those with
    the most points: a later entry with the same points does not replace
    it. *)
Theorem GET_keeps_first_of_highest :
  forall dir p,
    In p (peopleOf (fst (GET (Some dir)))) ->
    firstHighest p (allEntries (leaderboardFiles dir)).
Proof.
  intros dir p Hp. apply In_people in Hp. destruct Hp as [k Hk].
  unfold mergeFiles in Hk. rewrite contributors_fold in Hk.
  apply (firstHighest_fold (allEntries (leaderboardFiles dir)) [] []
                           Merged_empty) with (k := k).
  - intros k0 v0 [].
  - exact Hk.
Qed.

Lemma GET_keeps_first_of_highest_witness :
  firstHighest (contributor "carol" 30)
               (allEntries (leaderboardFiles sampleDirectory)).
Proof.
  apply (GET_keeps_first_of_highest sampleDirectory (contributor "carol" 30)).
  vm_compute. left. reflexivity.
Defined.

End PeopleApiMore.

Section PeopleApiOrder.

Import PeopleApi.

(** What the people of an answer are, in terms of the files' entries. *)
Lemma people_spec :
  forall dir p,
    In p (peopleOf (fst (GET (Some dir)))) ->
    In p (allEntries (leaderboardFiles dir))
    /\ isBot (username p) = false
    /\ forall e, In e (allEntries (leaderboardFiles dir)) ->
                 username e = username p ->
                 total_points e <= total_points p.
Proof.
  intros dir p Hp. apply In_people in Hp. destruct Hp as [k Hk].
  destruct (Merged_mergeFiles (leaderboardFiles dir)) as [_ Hs Hmax _].
  destruct (Hs k p Hk) as (Hname & Hseen & Hbot). subst k.
  repeat split; auto. intros e He Hu. apply (Hmax _ _ _ Hk He Hu).
Qed.

Lemma people_complete :
  forall dir e,
    In e (allEntries (leaderboardFiles dir)) ->
    isBot (username e) = false ->
    exists p, In p (peopleOf (fst (GET (Some dir))))
              /\ username p = username e.
Proof.
  intros dir e He Hbot.
  destruct (Merged_mergeFiles (leaderboardFiles dir)) as [_ Hs _ Hc].
  destruct (Hc e He Hbot) as [v Hv].
  exists v. split; [apply In_people; eauto | apply (Hs _ _ Hv)].
Qed.

Lemma people_NoDup :
  forall dir, NoDup (map username (peopleOf (fst (GET (Some dir))))).
Proof.
  intros dir. simpl.
  set (m := allContributors (mergeFiles (leaderboardFiles dir))).
  destruct (Merged_mergeFiles (leaderboardFiles dir)) as [Hnd Hs _ _].
  fold m in Hnd, Hs.
  apply (Permutation_NoDup (l := map fst m)); [|exact Hnd].
  replace (map fst m) with (map username (map_values m)).
  - apply Permutation_map, Permutation_sym, sort_Permutation.
  - unfold map_values. rewrite map_map. apply map_ext_in.
    intros [k v] Hkv. simpl. apply (Hs k v Hkv).
Qed.

Lemma filter_Permutation :
  forall (A : Type) (f : A -> bool) (l l' : list A),
    Permutation l l' -> Permutation (filter f l) (filter f l').
Proof.
  intros A f l l' H. induction H; simpl.
  - constructor.
  - destruct (f x); [constructor|]; assumption.
  - destruct (f x), (f y); try apply Permutation_refl. constructor.
  - eapply perm_trans; eassumption.
Qed.

Lemma allEntries_Permutation :
  forall dir dir',
    Permutation dir dir' ->
    Permutation (parsedFiles (leaderboardFiles dir))
                (parsedFiles (leaderboardFiles dir'))
    /\ Permutation (allEntries (leaderboardFiles dir))
                   (allEntries (leaderboardFiles dir')).
Proof.
  intros dir dir' H.
  assert (Hp : Permutation (parsedFiles (leaderboardFiles dir))
                           (parsedFiles (leaderboardFiles dir'))).
  { unfold parsedFiles, leaderboardFiles.
    apply Permutation_flat_map, filter_Permutation, H. }
  split; [exact Hp|]. unfold allEntries. apply Permutation_flat_map, Hp.
Qed.

(** Two lists of numbers in non-increasing order with the same elements
    are the same list. *)
Lemma sorted_Permutation_eq :
  forall l l' : list Z,
    StronglySorted (fun a b => b <= a) l ->
    StronglySorted (fun a b => b <= a) l' ->
    Permutation l l' ->
    l = l'.
Proof.
  induction l as [|a l IH]; intros l' Hl Hl' Hperm.
  - apply Permutation_nil in Hperm. subst. reflexivity.
  - destruct l' as [|b l'].
    + apply Permutation_sym, Permutation_nil in Hperm. discriminate.
    + apply StronglySorted_inv in Hl. destruct Hl as [Hl Ha].
      apply StronglySorted_inv in Hl'. destruct Hl' as [Hl' Hb].
      rewrite Forall_forall in Ha, Hb.
      assert (Hab : a = b).
      { assert (Hina : In a (b :: l'))
          by (apply (Permutation_in _ Hperm); left; reflexivity).
        assert (Hinb : In b (a :: l))
          by (apply (Permutation_in _ (Permutation_sym Hperm));
              left; reflexivity).
        destruct Hina as [->|Hina]; [reflexivity|].
        destruct Hinb as [->|Hinb]; [reflexivity|].
        specialize (Ha _ Hinb). specialize (Hb _ Hina). lia. }
      subst b. f_equal. apply IH; auto.
      apply Permutation_cons_inv in Hperm. exact Hperm.
Qed.

Lemma sorted_points :
  forall l,
    StronglySorted (fun a b => total_points b <= total_points a) l ->
    StronglySorted (fun a b => b <= a) (map total_points l).
Proof.
  intros l H. induction H as [|a l Hl IH Ha]; simpl.
  - constructor.
  - constructor; [exact IH|].
    rewrite Forall_forall in *. intros x Hx.
    apply in_map_iff in Hx. destruct Hx as (e & <- & He). auto.
Qed.

Lemma updatedAt_spec :
  forall dir updated people,
    fst (GET (Some dir)) = Ok200 updated people ->
    0 <= updated
    /\ (forall data, In data (parsedFiles (leaderboardFiles dir)) ->
                     updatedAt data <= updated)
    /\ (updated = 0
        \/ exists data, In data (parsedFiles (leaderboardFiles dir))
                        /\ updatedAt data = updated).
Proof.
  intros dir updated people H. simpl in H. injection H as <- _.
  unfold mergeFiles. rewrite latest_fold. simpl.
  apply (latest_bounds (parsedFiles (leaderboardFiles dir)) 0).
Qed.

(** The order in which the directory lists its files does not matter for
    what the answer says: the timestamp is the same, the usernames are the
    same, each with the same points, and the column of points, from first
    to last, is the same.  (Which of two entries with the same username and
    points is shown, and the order of people with the same points, can
    differ.) *)
Theorem GET_order_of_files :
  forall dir dir' updated people updated' people',
    Permutation dir dir' ->
    fst (GET (Some dir)) = Ok200 updated people ->
    fst (GET (Some dir')) = Ok200 updated' people' ->
    updated = updated'
    /\ Permutation (map score people) (map score people')
    /\ map total_points people = map total_points people'.
Proof.
  intros dir dir' updated people updated' people' Hperm Hget Hget'.
  destruct (allEntries_Permutation dir dir' Hperm) as [Hfiles Hentries].
  assert (Hscores : forall d d' ps ps' u u',
             Permutation (allEntries (leaderboardFiles d))
                         (allEntries (leaderboardFiles d')) ->
             fst (GET (Some d)) = Ok200 u ps ->
             fst (GET (Some d')) = Ok200 u' ps' ->
             forall x, In x (map score ps) -> In x (map score ps')).
  { intros d d' ps ps' u u' Hp Hg Hg' x Hx.
    apply in_map_iff in Hx. destruct Hx as (p & <- & Hin).
    assert (Hin1 : In p (peopleOf (fst (GET (Some d)))))
      by (rewrite Hg; exact Hin).
    destruct (people_spec d p Hin1) as (Hseen & Hbot & Hmax).
    destruct (people_complete d' p (Permutation_in _ Hp Hseen) Hbot)
      as (q & Hq & Hname).
    destruct (people_spec d' q Hq) as (Hseen' & _ & Hmax').
    apply in_map_iff. exists q. split; [|rewrite Hg' in Hq; exact Hq].
    unfold score. rewrite Hname. f_equal.
    pose proof (Hmax' p (Permutation_in _ Hp Hseen) (eq_sym Hname)).
    pose proof (Hmax q (Permutation_in _ (Permutation_sym Hp) Hseen') Hname).
    lia. }
  assert (Hnd : forall d u ps,
             fst (GET (Some d)) = Ok200 u ps -> NoDup (map score ps)).
  { intros d u ps Hg. apply (NoDup_map_inv fst). rewrite map_map. simpl.
    pose proof (people_NoDup d) as H. rewrite Hg in H. exact H. }
  assert (Hpairs : Permutation (map score people) (map score people')).
  { apply NoDup_Permutation; eauto. intros x. split.
    - apply (Hscores dir dir' people people' updated updated'); auto.
    - apply (Hscores dir' dir people' people updated' updated); auto.
      apply Permutation_sym, Hentries. }
  split; [|split].
  - destruct (updatedAt_spec _ _ _ Hget) as (H0 & Hub & Hatt).
    destruct (updatedAt_spec _ _ _ Hget') as (H0' & Hub' & Hatt').
    assert (updated <= updated').
    { destruct Hatt as [->|(data & Hin & <-)]; [exact H0'|].
      apply Hub'. apply (Permutation_in _ Hfiles Hin). }
    assert (updated' <= updated).
    { destruct Hatt' as [->|(data & Hin & <-)]; [exact H0|].
      apply Hub. apply (Permutation_in _ (Permutation_sym Hfiles) Hin). }
    lia.
  - exact Hpairs.
  - apply sorted_Permutation_eq.
    + apply sorted_points. simpl in Hget. injection Hget as _ <-.
      apply sort_sorted.
    + apply sorted_points. simpl in Hget'. injection Hget' as _ <-.
      apply sort_sorted.
    + apply (Permutation_map snd) in Hpairs.
      rewrite !map_map in Hpairs. exact Hpairs.
Qed.

Lemma GET_order_of_files_witness :
  1800000000000 = 1800000000000
  /\ Permutation
       (map score [contributor "carol" 30; contributor "alice" 10])
       (map score [contributor "carol" 30; contributor "alice" 10])
  /\ map total_points [contributor "carol" 30; contributor "alice" 10]
     = map total_points [contributor "carol" 30; contributor "alice" 10].
Proof.
  apply (GET_order_of_files sampleDirectory (rev sampleDirectory)).
  - apply Permutation_rev.
  - vm_compute. reflexivity.
  - vm_compute. reflexivity.
Defined.

(** ** Reading the same data again *)

Lemma mergeEntry_seen :
  forall m seen e, Merged m seen -> In e seen -> mergeEntry m e = m.
Proof.
  intros m seen e [Hnd Hs Hmax Hc] He. unfold mergeEntry.
  destruct (isBot (username e)) eqn:Hbot; [reflexivity|].
  destruct (Hc e He Hbot) as [v Hv].
  rewrite (In_map_get _ _ _ Hnd Hv).
  pose proof (Hmax _ _ _ Hv He eq_refl) as Hle.
  destruct (total_points e >? total_points v) eqn:Hgt; [|reflexivity].
  apply Z.gtb_lt in Hgt. lia.
Qed.

Lemma mergeEntry_seen_fold :
  forall es m seen,
    Merged m seen -> incl es seen -> fold_left mergeEntry es m = m.
Proof.
  induction es as [|e es IH]; intros m seen HM Hincl; simpl.
  - reflexivity.
  - rewrite (mergeEntry_seen m seen e HM) by (apply Hincl; left; reflexivity).
    apply (IH m seen HM). intros x Hx. apply Hincl. right. exact Hx.
Qed.

Lemma latest_no_later :
  forall datas start,
    (forall data, In data datas -> updatedAt data <= start) ->
    fold_left (fun latest data =>
                 if updatedAt data >? latest then updatedAt data else latest)
              datas start = start.
Proof.
  induction datas as [|d datas IH]; intros start H; simpl.
  - reflexivity.
  - assert (Hd : (updatedAt d >? start) = false).
    { rewrite Z.gtb_ltb. apply Z.ltb_ge. apply H. left. reflexivity. }
    rewrite Hd. apply IH. intros data Hin. apply H. right. exact Hin.
Qed.

(** Files whose data the handler has already read add nothing: if every
    parsed file of [again] is also a parsed file of [dir], the answer for
    the two directories together is the answer for [dir].  So a copy of a
    leaderboard file under another name changes no score and no
    timestamp. *)
Theorem GET_reading_again :
  forall dir again,
    incl (parsedFiles (leaderboardFiles again))
         (parsedFiles (leaderboardFiles dir)) ->
    fst (GET (Some (dir ++ again))) = fst (GET (Some dir)).
Proof.
  intros dir again Hincl. simpl.
  assert (Hfiles : leaderboardFiles (dir ++ again)
                   = leaderboardFiles dir ++ leaderboardFiles again)
    by apply filter_app.
  rewrite Hfiles.
  set (files := leaderboardFiles dir) in *.
  set (more := leaderboardFiles again) in *.
  assert (Hm : allContributors (mergeFiles (files ++ more))
               = allContributors (mergeFiles files)).
  { unfold mergeFiles. rewrite fold_left_app, contributors_fold.
    apply (mergeEntry_seen_fold _ _ (allEntries files)).
    - apply Merged_mergeFiles.
    - intros e He. unfold allEntries in *.
      apply in_flat_map in He. destruct He as (data & Hdata & He).
      apply in_flat_map. exists data. split; [apply Hincl, Hdata | exact He]. }
  assert (Hl : latestUpdatedAt (mergeFiles (files ++ more))
               = latestUpdatedAt (mergeFiles files)).
  { unfold mergeFiles. rewrite fold_left_app, latest_fold.
    apply latest_no_later. intros data Hdata.
    rewrite latest_fold.
    apply (latest_bounds (parsedFiles files) (latestUpdatedAt initialState)).
    apply Hincl, Hdata. }
  rewrite Hm, Hl. reflexivity.
Qed.

Lemma GET_reading_again_witness :
  fst (GET (Some (sampleDirectory ++ sampleDirectory)))
  = fst (GET (Some sampleDirectory)).
Proof.
  apply (GET_reading_again sampleDirectory sampleDirectory).
  apply incl_refl.
Defined.

End PeopleApiOrder.

(* ===================================================================== *)
(** * Properties of the people page *)
(* ===================================================================== *)

Section SortMore.

Import PeopleApi.

Variable cmp : ContributorEntry -> ContributorEntry -> Z.

Lemma sort_In :
  forall l x, In x (sort cmp l) <-> In x l.
Proof.
  intros l x. split; apply Permutation_in;
    [apply sort_Permutation | apply Permutation_sym, sort_Permutation].
Qed.

(** Sorting a list that is in order gives the list back. *)
Lemma sort_in_order :
  forall l,
    StronglySorted (fun a b => cmp a b <= 0) l -> sort cmp l = l.
Proof.
  intros l H. induction H as [|a l Hl IH Ha]; simpl.
  - reflexivity.
  - rewrite IH. destruct l as [|b l]; simpl; [reflexivity|].
    inversion Ha as [|? ? Hab _]; subst.
    apply Z.leb_le in Hab. rewrite Hab. reflexivity.
Qed.

(** A comparison function that subtracts keys sorts by the key. *)
Variable key : ContributorEntry -> Z.
Hypothesis cmp_key : forall a b, cmp a b = key a - key b.

Lemma insert_by_key :
  forall x l,
    StronglySorted (fun a b => key a <= key b) l ->
    StronglySorted (fun a b => key a <= key b) (insert cmp x l).
Proof.
  intros x l Hl. induction Hl as [|y l Hl IH Hy]; simpl.
  - repeat constructor.
  - rewrite cmp_key. destruct (key x - key y <=? 0) eqn:Hc.
    + apply Z.leb_le in Hc. constructor.
      * constructor; assumption.
      * constructor; [lia|].
        rewrite Forall_forall in *. intros z Hz. specialize (Hy z Hz). lia.
    + apply Z.leb_gt in Hc. constructor.
      * exact IH.
      * rewrite Forall_forall in *. intros z Hz.
        apply (Permutation_in _ (insert_Permutation cmp x l)) in Hz.
        destruct Hz as [<-|Hz]; [lia|auto].
Qed.

Lemma sort_by_key :
  forall l, StronglySorted (fun a b => key a <= key b) (sort cmp l).
Proof.
  induction l as [|x l IH]; simpl.
  - constructor.
  - apply insert_by_key. exact IH.
Qed.

End SortMore.

Section PeoplePageClaims.

Import PeopleApi PeoplePage.

Variable toLowerCase : string -> string.
Variable localeCompare : string -> string -> Z.
Variable getTime : string -> option Z.

Local Abbreviation filtered :=
  (filteredContributors toLowerCase localeCompare getTime).

(** The page lists a contributor exactly when the contributor is among the
    people it was given and passes the filters that are switched on: the
    search box when it is not empty, the points filter when [minPoints] is
    above zero.  Whatever the sort, nobody is added and nobody who passes
    is dropped; the page never lists more people than it was given. *)
Theorem filteredContributors_shows_who_passes :
  forall people filters c,
    (In c (filtered people filters)
     <-> In c people /\ passes toLowerCase filters c)
    /\ (List.length (filtered people filters) <= List.length people)%nat.
Proof.
  intros people filters c.
  unfold filteredContributors, passes.
  set (bySearch :=
         match search filters with
         | EmptyString => people
         | _ => filter (matchesSearch toLowerCase
                                      (toLowerCase (search filters))) people
         end).
  set (byPoints :=
         if minPoints filters >? 0
         then filter (fun c => total_points c >=? minPoints filters) bySearch
         else bySearch).
  assert (Hs : In c bySearch
               <-> In c people
                   /\ (search filters = EmptyString
                       \/ matchesSearch toLowerCase
                                        (toLowerCase (search filters)) c = true)).
  { subst bySearch. destruct (search filters) as [|a s].
    - tauto.
    - rewrite filter_In. split; [tauto|].
      intros [Hin [H|H]]; [discriminate|auto]. }
  assert (Hp : In c byPoints
               <-> In c bySearch
                   /\ (minPoints filters <= 0
                       \/ minPoints filters <= total_points c)).
  { subst byPoints. destruct (minPoints filters >? 0) eqn:Hm.
    - apply Z.gtb_lt in Hm. rewrite filter_In, Z.geb_le. split; [tauto|].
      intros [Hin [H|H]]; [lia|auto].
    - rewrite Z.gtb_ltb in Hm. apply Z.ltb_ge in Hm. tauto. }
  assert (Hls : (List.length bySearch <= List.length people)%nat).
  { subst bySearch. destruct (search filters); [lia | apply filter_length_le]. }
  assert (Hlp : (List.length byPoints <= List.length bySearch)%nat).
  { subst byPoints.
    destruct (minPoints filters >? 0); [apply filter_length_le | lia]. }
  split.
  - rewrite sort_In, Hp, Hs. tauto.
  - rewrite (Permutation_length (sort_Permutation _ byPoints)). lia.
Qed.

(** Sorted by points, the list is in that order whatever the other
    filters are: for "desc" no contributor has fewer points than one listed
    after, for "asc" none has more. *)
Theorem filteredContributors_in_order :
  forall people text least view,
    StronglySorted
      (fun a b => total_points b <= total_points a)
      (filteredContributors
         toLowerCase localeCompare getTime people
         (mkFilterState text sortBy_points desc least view))
    /\ StronglySorted
         (fun a b => total_points a <= total_points b)
         (filteredContributors
            toLowerCase localeCompare getTime people
            (mkFilterState text sortBy_points asc least view)).
Proof.
  intros people text least view.
  assert (Hflip : forall (key : ContributorEntry -> Z) l,
             StronglySorted (fun a b => - key a <= - key b) l ->
             StronglySorted (fun a b => key b <= key a) l).
  { intros key l H. induction H as [|a l Hl IH Ha]; constructor; auto.
    rewrite Forall_forall in *. intros x Hx. specialize (Ha x Hx). lia. }
  unfold filteredContributors. split.
  - apply (Hflip total_points).
    apply sort_by_key with (key := fun c => - total_points c).
    intros a b. unfold compareContributors. simpl. lia.
  - apply sort_by_key. intros a b. reflexivity.
Qed.

(** With the filters of the first render (empty search, no minimum, by
    points, highest first) the page lists the people of the API's answer
    as they are, in the same order, in either view. *)
Theorem filteredContributors_keeps_answer :
  forall dir least view,
    least <= 0 ->
    filtered (peopleOf (fst (GET (Some dir))))
             (mkFilterState "" sortBy_points desc least view)
    = peopleOf (fst (GET (Some dir))).
Proof.
  intros dir least view Hleast. unfold filteredContributors. simpl.
  assert (Hm : (least >? 0) = false)
    by (rewrite Z.gtb_ltb; apply Z.ltb_ge; exact Hleast).
  rewrite Hm. apply sort_in_order.
  pose proof (sort_sorted
                (map_values (allContributors
                               (mergeFiles (leaderboardFiles dir))))) as H.
  induction H as [|a l Hl IH Ha]; constructor; auto.
  rewrite Forall_forall in *. intros x Hx. specialize (Ha x Hx).
  unfold compareContributors. simpl. lia.
Qed.

End PeoplePageClaims.

(** Counts are added as doubles: 2^53 + 1 is 2^53, so two contributors
    with counts 2^53, 1 and 2^53 have the same activity and the sort leaves
    them as they are. *)
Lemma activity_sum_is_rounded :
  PeoplePage.filteredContributors
    (fun s => s) (fun _ _ => 0) (fun _ => None)
    [PeopleApi.mkContributorEntry
       "a" None "" "" 0
       [("pr"%string, PeopleApi.mkActivityStat 9007199254740992 0);
        ("issue"%string, PeopleApi.mkActivityStat 1 0)] [];
     PeopleApi.mkContributorEntry
       "b" None "" "" 0
       [("pr"%string, PeopleApi.mkActivityStat 9007199254740992 0)] []]
    (PeoplePage.mkFilterState "" PeoplePage.sortBy_activity PeoplePage.asc 0
                              PeoplePage.grid)
  = [PeopleApi.mkContributorEntry
       "a" None "" "" 0
       [("pr"%string, PeopleApi.mkActivityStat 9007199254740992 0);
        ("issue"%string, PeopleApi.mkActivityStat 1 0)] [];
     PeopleApi.mkContributorEntry
       "b" None "" "" 0
       [("pr"%string, PeopleApi.mkActivityStat 9007199254740992 0)] []].
Proof. vm_compute. reflexivity. Qed.

Lemma filteredContributors_keeps_answer_witness :
  PeoplePage.filteredContributors
    (fun s => s) (fun _ _ => 0) (fun _ => None)
    (PeopleApi.peopleOf (fst (PeopleApi.GET (Some PeopleApi.sampleDirectory))))
    PeoplePage.initialFilters
  = PeopleApi.peopleOf (fst (PeopleApi.GET (Some PeopleApi.sampleDirectory))).
Proof.
  apply (filteredContributors_keeps_answer
           (fun s => s) (fun _ _ => 0) (fun _ => None)
           PeopleApi.sampleDirectory 0 PeoplePage.grid).
  discriminate.
Defined.

(* ===================================================================== *)
(** * Properties of the contribution heatmap *)
(* ===================================================================== *)

Section HeatmapLevels.

Import PeopleApi Heatmap.

(** The comparison of a quotient with a fraction, without the division. *)
Lemma quotient_le :
  forall (p m n : Z) (d : positive),
    0 < m ->
    QArith_base.Qle_bool
      (QArith_base.Qdiv (QArith_base.inject_Z p) (QArith_base.inject_Z m))
      (QArith_base.Qmake n d) = true
    <-> Z.pos d * p <= n * m.
Proof.
  intros p m n d Hm. rewrite QArith_base.Qle_bool_iff.
  destruct m as [|q|q]; try lia.
  unfold QArith_base.Qle, QArith_base.Qdiv, QArith_base.Qmult,
    QArith_base.Qinv, QArith_base.inject_Z.
  cbn -[Z.mul]. lia.
Qed.

Lemma level_thresholds :
  forall m p,
    0 < m ->
    getContributionLevel m p
    = if p =? 0 then 0%nat
      else if 4 * p <=? m then 1%nat
           else if 2 * p <=? m then 2%nat
                else if 4 * p <=? 3 * m then 3%nat
                     else 4%nat.
Proof.
  intros m p Hm. unfold getContributionLevel.
  destruct (p =? 0); [reflexivity|].
  pose proof (quotient_le p m 1 4 Hm) as H1.
  pose proof (quotient_le p m 1 2 Hm) as H2.
  pose proof (quotient_le p m 3 4 Hm) as H3.
  repeat match goal with
         | |- context [QArith_base.Qle_bool ?x ?y] =>
             destruct (QArith_base.Qle_bool x y)
         end;
    repeat match goal with
           | |- context [?a <=? ?b] => destruct (Z.leb_spec a b)
           end;
    try reflexivity; exfalso;
    repeat match goal with
           | H : true = true <-> _ |- _ =>
               pose proof (proj1 H eq_refl); clear H
           | H : false = true <-> _ |- _ =>
               assert (~ (false = true)) by discriminate;
               let H' := fresh in
               assert (H' := proj2 H); clear H
           end; lia.
Qed.

Lemma maxActivity_bounds :
  forall dailyActivity,
    1 <= maxActivity dailyActivity
    /\ forall day, In day dailyActivity ->
                   PeopleApi.points day <= maxActivity dailyActivity.
Proof.
  unfold maxActivity. induction dailyActivity as [|d l [IH1 IH2]]; simpl.
  - split; [lia | intros day []].
  - split; [lia|]. intros day [<-|Hin]; [lia|].
    specialize (IH2 day Hin). lia.
Qed.

(** Every level the component computes is one of the five of the colour
    table, so a cell always gets a colour, never [undefined]; and the level
    is 0, the colour of a day without activity, exactly when the day has 0
    points. *)
Theorem contribution_level_has_color :
  forall dailyActivity points,
    (exists color,
        getContributionColor
          (getContributionLevel (maxActivity dailyActivity) points)
        = Some color)
    /\ (getContributionLevel (maxActivity dailyActivity) points = 0%nat
        <-> points = 0).
Proof.
  intros dailyActivity points.
  destruct (maxActivity_bounds dailyActivity) as [Hm _].
  rewrite level_thresholds by lia.
  destruct (Z.eqb_spec points 0) as [->|Hne].
  - split; [eexists; reflexivity | tauto].
  - split.
    + destruct (4 * points <=? maxActivity dailyActivity);
        [eexists; reflexivity|].
      destruct (2 * points <=? maxActivity dailyActivity);
        [eexists; reflexivity|].
      destruct (4 * points <=? 3 * maxActivity dailyActivity);
        eexists; reflexivity.
    + destruct (4 * points <=? maxActivity dailyActivity);
        [split; [discriminate | contradiction]|].
      destruct (2 * points <=? maxActivity dailyActivity);
        [split; [discriminate | contradiction]|].
      destruct (4 * points <=? 3 * maxActivity dailyActivity);
        split; (discriminate || contradiction).
Qed.

(** No day of the data has more points than the scale's maximum, a day
    that reaches the maximum is drawn at level 4, and of two days with
    points above zero the one with more points never has the lower
    level. *)
Theorem busiest_day_has_level_4 :
  forall dailyActivity day,
    In day dailyActivity ->
    PeopleApi.points day <= maxActivity dailyActivity
    /\ (PeopleApi.points day = maxActivity dailyActivity ->
        getContributionLevel (maxActivity dailyActivity)
                             (PeopleApi.points day) = 4%nat)
    /\ (forall p q,
           0 < p -> p <= q ->
           (getContributionLevel (maxActivity dailyActivity) p
            <= getContributionLevel (maxActivity dailyActivity) q)%nat).
Proof.
  intros dailyActivity day Hin.
  destruct (maxActivity_bounds dailyActivity) as [Hm Hub].
  split; [apply Hub, Hin|]. split.
  - intros Heq. rewrite level_thresholds by lia. rewrite Heq.
    destruct (Z.eqb_spec (maxActivity dailyActivity) 0); [lia|].
    repeat match goal with
           | |- context [?a <=? ?b] => destruct (Z.leb_spec a b)
           end; try lia; reflexivity.
  - intros p q Hp Hpq. rewrite !level_thresholds by lia.
    destruct (Z.eqb_spec p 0); [lia|].
    destruct (Z.eqb_spec q 0); [lia|].
    repeat match goal with
           | |- context [?a <=? ?b] => destruct (Z.leb_spec a b)
           end; lia.
Qed.

Lemma busiest_day_has_level_4_witness :
  getContributionLevel
    (maxActivity [mkDailyActivity "2024-05-14" 2 9;
                  mkDailyActivity "2024-05-15" 1 4])
    (PeopleApi.points (mkDailyActivity "2024-05-14" 2 9)) = 4%nat.
Proof.
  apply (busiest_day_has_level_4
           [mkDailyActivity "2024-05-14" 2 9; mkDailyActivity "2024-05-15" 1 4]
           (mkDailyActivity "2024-05-14" 2 9)).
  - left. reflexivity.
  - reflexivity.
Defined.

(** ** The map of activities *)

Lemma activity_get_set :
  forall m key value key',
    activity_get (activity_set m key value) key'
    = if String.eqb key key' then Some value else activity_get m key'.
Proof.
  induction m as [|[k v] m IH]; intros key value key'; simpl.
  - reflexivity.
  - destruct (String.eqb_spec k key) as [->|Hne]; simpl.
    + destruct (String.eqb_spec key key'); reflexivity.
    + rewrite IH. destruct (String.eqb_spec k key') as [->|Hne'].
      * destruct (String.eqb_spec key key'); [congruence | reflexivity].
      * reflexivity.
Qed.

(** When the data has several records for one date, the heatmap uses the
    last of them; for a date without record it finds none (and draws 0). *)
Theorem activityMap_last_record_wins :
  forall dailyActivity dateStr,
    activity_get (activityMap dailyActivity) dateStr
    = find (fun day => String.eqb (PeopleApi.date day) dateStr)
           (rev dailyActivity).
Proof.
  intros dailyActivity dateStr. unfold activityMap.
  induction dailyActivity as [|day l IH] using rev_ind.
  - reflexivity.
  - rewrite fold_left_app, rev_app_distr. simpl.
    rewrite activity_get_set, IH. reflexivity.
Qed.

End HeatmapLevels.

Section HeatmapWeeks.

Import Heatmap.

(** ** The loop that fills the last week *)

Lemma fillWeek_spec :
  forall fuel week,
    exists trailing,
      fillWeek fuel week = week ++ trailing
      /\ Forall isEmptyDay trailing
      /\ (List.length trailing <= 7 - List.length week)%nat
      /\ map dayOfWeek trailing
         = seq (List.length week) (List.length trailing)
      /\ ((7 - List.length week <= fuel)%nat ->
          List.length trailing = (7 - List.length week)%nat).
Proof.
  induction fuel as [|fuel IH]; intros week; cbn [fillWeek].
  - exists []. rewrite app_nil_r. cbn [List.length map seq].
    repeat split; auto; lia.
  - destruct (Nat.ltb_spec (List.length week) 7) as [Hlt|Hge].
    + destruct (IH (week ++ [emptyDay (List.length week)]))
        as (t & Heq & Hempty & Hlen & Hdow & Hfull).
      rewrite length_app in Hlen, Hdow, Hfull.
      cbn [List.length] in Hlen, Hdow, Hfull.
      exists (emptyDay (List.length week) :: t).
      split; [rewrite Heq, <- app_assoc; reflexivity|].
      split; [constructor; [reflexivity | exact Hempty]|].
      cbn [List.length map seq dayOfWeek emptyDay].
      split; [lia|].
      split.
      * rewrite Hdow. f_equal. f_equal. lia.
      * intros Hf. rewrite Hfull; lia.
    + exists []. rewrite app_nil_r. cbn [List.length map seq].
      repeat split; auto; lia.
Qed.

Lemma groupDays_last :
  forall day weeks currentWeek,
    groupDays [day] weeks currentWeek
    = weeks ++ [fillWeek 7 (currentWeek ++ [day])].
Proof.
  intros day weeks currentWeek. cbn [groupDays].
  rewrite orb_true_r. reflexivity.
Qed.

Lemma groupDays_next :
  forall day next rest weeks currentWeek,
    groupDays (day :: next :: rest) weeks currentWeek
    = if Nat.eqb (dayOfWeek day) 6
      then groupDays (next :: rest) (weeks ++ [currentWeek ++ [day]]) []
      else groupDays (next :: rest) weeks (currentWeek ++ [day]).
Proof.
  intros day next rest weeks currentWeek. cbn [groupDays].
  rewrite orb_false_r. reflexivity.
Qed.

(** ** No day is lost *)

Lemma groupDays_concat :
  forall days weeks currentWeek,
    days <> [] ->
    exists trailing,
      List.concat (groupDays days weeks currentWeek)
      = List.concat weeks ++ currentWeek ++ days ++ trailing
      /\ Forall isEmptyDay trailing
      /\ (List.length trailing <= 6)%nat.
Proof.
  induction days as [|day rest IH]; intros weeks currentWeek Hne.
  - contradiction.
  - destruct rest as [|next rest'].
    + rewrite groupDays_last.
      destruct (fillWeek_spec 7 (currentWeek ++ [day]))
        as (t & Heq & Hempty & Hlen & _).
      exists t. rewrite length_app in Hlen. cbn [List.length] in Hlen.
      split; [|split; [exact Hempty | lia]].
      rewrite concat_app. cbn [List.concat].
      rewrite app_nil_r, Heq, <- !app_assoc. reflexivity.
    + rewrite groupDays_next.
      destruct (Nat.eqb (dayOfWeek day) 6).
      * destruct (IH (weeks ++ [currentWeek ++ [day]]) [])
          as (t & Heq & Hempty & Hlen); [discriminate|].
        exists t. split; [|split; assumption].
        etransitivity; [exact Heq|].
        rewrite concat_app. cbn [List.concat].
        rewrite app_nil_r, <- !app_assoc. reflexivity.
      * destruct (IH weeks (currentWeek ++ [day]))
          as (t & Heq & Hempty & Hlen); [discriminate|].
        exists t. split; [|split; assumption].
        etransitivity; [exact Heq|].
        rewrite <- !app_assoc. reflexivity.
Qed.

Lemma leadingDays_spec :
  forall days,
    Forall isEmptyDay (leadingDays days)
    /\ map dayOfWeek (leadingDays days) = seq 0 (List.length (leadingDays days))
    /\ match days with
       | [] => True
       | firstDay :: _ => List.length (leadingDays days) = dayOfWeek firstDay
       end.
Proof.
  intros [|firstDay rest]; simpl.
  - repeat split; constructor.
  - destruct (Nat.eqb_spec (dayOfWeek firstDay) 0) as [H0|Hn0]; simpl.
    + repeat split; auto.
    + rewrite length_map, length_seq. repeat split.
      * apply Forall_forall. intros x Hx. apply in_map_iff in Hx.
        destruct Hx as (i & <- & _). reflexivity.
      * rewrite map_map. simpl. apply map_id.
Qed.

Lemma weeksOf_concat :
  forall days,
    exists trailing,
      List.concat (weeksOf days) = leadingDays days ++ days ++ trailing
      /\ Forall isEmptyDay (leadingDays days)
      /\ Forall isEmptyDay trailing
      /\ (List.length trailing <= 6)%nat.
Proof.
  intros days. destruct (leadingDays_spec days) as (Hlead & _).
  destruct days as [|day rest].
  - exists []. repeat split; auto. simpl. lia.
  - destruct (groupDays_concat (day :: rest) [] (leadingDays (day :: rest)))
      as (t & Heq & Hempty & Hlen); [discriminate|].
    exists t. unfold weeksOf. rewrite Heq. repeat split; auto.
Qed.

(** The grid shows every day once, in order: read week after week, its
    cells are the empty cells before the first day, then the days, then at
    most six empty cells that fill the last week.  So when every day has a
    date, the cells with a date, in the order of the grid, are the days. *)
Theorem weeks_hold_every_day_once :
  forall days,
    (exists trailing,
        List.concat (weeksOf days) = leadingDays days ++ days ++ trailing
        /\ Forall isEmptyDay (leadingDays days)
        /\ Forall isEmptyDay trailing
        /\ (List.length trailing <= 6)%nat)
    /\ (Forall (fun day => date day <> EmptyString) days ->
        filter (fun day => negb (String.eqb (date day) ""))
               (List.concat (weeksOf days))
        = days).
Proof.
  intros days. split; [apply weeksOf_concat|].
  intros Hdates.
  destruct (weeksOf_concat days) as (t & -> & Hlead & Htrail & _).
  assert (Hnone : forall l, Forall isEmptyDay l ->
                            filter (fun day => negb (String.eqb (date day) ""))
                                   l = []).
  { intros l Hl. induction Hl as [|d l Hd _ IH]; simpl; [reflexivity|].
    unfold isEmptyDay in Hd. rewrite Hd. simpl. exact IH. }
  assert (Hall : forall l,
             Forall (fun day => date day <> EmptyString) l ->
             filter (fun day => negb (String.eqb (date day) "")) l = l).
  { intros l Hl. induction Hl as [|d l Hd _ IH]; simpl; [reflexivity|].
    destruct (String.eqb_spec (date d) ""); [contradiction|].
    simpl. rewrite IH. reflexivity. }
  rewrite !filter_app, (Hnone _ Hlead), (Hnone _ Htrail), (Hall _ Hdates).
  apply app_nil_r.
Qed.

Lemma weeks_hold_every_day_once_witness :
  filter (fun day => negb (String.eqb (date day) ""))
         (List.concat (weeksOf [mkDay "2024-05-14" 2 9 2 false;
                                mkDay "2024-05-15" 1 4 3 true]))
  = [mkDay "2024-05-14" 2 9 2 false; mkDay "2024-05-15" 1 4 3 true].
Proof.
  apply (proj2 (weeks_hold_every_day_once
                  [mkDay "2024-05-14" 2 9 2 false;
                   mkDay "2024-05-15" 1 4 3 true])).
  repeat constructor; discriminate.
Defined.

(** ** Weeks of seven days, Sunday first *)

Lemma groupDays_aligned :
  forall days weeks currentWeek,
    consecutive days = true ->
    map dayOfWeek currentWeek = seq 0 (List.length currentWeek) ->
    match days with
    | [] => True
    | day :: _ => dayOfWeek day = List.length currentWeek
    end ->
    Forall (fun week => map dayOfWeek week = seq 0 7) weeks ->
    Forall (fun week => map dayOfWeek week = seq 0 7)
           (groupDays days weeks currentWeek).
Proof.
  induction days as [|day rest IH]; intros weeks currentWeek Hc Hcur Hday Hw.
  - exact Hw.
  - assert (Hcur' : map dayOfWeek (currentWeek ++ [day])
                    = seq 0 (List.length (currentWeek ++ [day]))).
    { rewrite map_app, length_app, Hcur. cbn [map List.length].
      rewrite Nat.add_1_r, seq_S, Hday. reflexivity. }
    assert (Hlen : List.length (currentWeek ++ [day]) = S (dayOfWeek day))
      by (rewrite length_app; cbn [List.length]; lia).
    destruct rest as [|next rest'].
    + cbn [consecutive] in Hc.
      apply andb_true_iff in Hc. destruct Hc as [Hc _].
      apply andb_true_iff in Hc. destruct Hc as [Hlt _].
      apply Nat.ltb_lt in Hlt.
      rewrite groupDays_last. apply Forall_app. split; [exact Hw|].
      repeat constructor.
      destruct (fillWeek_spec 7 (currentWeek ++ [day]))
        as (t & Heq & _ & _ & Hdow & Hfull).
      rewrite Heq, map_app, Hcur', Hdow, Hfull by lia.
      rewrite <- seq_app. f_equal. rewrite Hlen. lia.
    + assert (Hc' := Hc). cbn [consecutive] in Hc.
      apply andb_true_iff in Hc. destruct Hc as [Hc Hrest].
      apply andb_true_iff in Hc. destruct Hc as [Hlt Hnext].
      apply Nat.ltb_lt in Hlt. apply Nat.eqb_eq in Hnext.
      rewrite groupDays_next.
      destruct (Nat.eqb_spec (dayOfWeek day) 6) as [H6|Hn6].
      * apply IH; auto.
        -- rewrite Hnext, H6. reflexivity.
        -- apply Forall_app. split; [exact Hw|]. repeat constructor.
           rewrite Hcur', Hlen, H6. reflexivity.
      * apply IH; auto.
        rewrite Hnext, Hlen, Nat.mod_small; lia.
Qed.

Lemma concat_length_7 :
  forall weeks : list (list Day),
    Forall (fun week => map dayOfWeek week = seq 0 7) weeks ->
    List.length (List.concat weeks) = (7 * List.length weeks)%nat.
Proof.
  intros weeks H. induction H as [|week weeks Hweek _ IH]; simpl.
  - reflexivity.
  - rewrite length_app, IH.
    apply (f_equal (@List.length nat)) in Hweek.
    rewrite length_map, length_seq in Hweek. lia.
Qed.

Lemma weeksOf_aligned :
  forall days,
    consecutive days = true ->
    Forall (fun week => map dayOfWeek week = [0; 1; 2; 3; 4; 5; 6]%nat)
           (weeksOf days).
Proof.
  intros days Hc.
  destruct (leadingDays_spec days) as (_ & Hdow & Hfirst).
  unfold weeksOf. apply groupDays_aligned; auto.
  destruct days; [exact I | symmetry; exact Hfirst].
Qed.

Lemma weeksOf_count :
  forall days,
    consecutive days = true ->
    (7 * List.length (weeksOf days) < List.length days + 13)%nat
    /\ (List.length days <= 7 * List.length (weeksOf days))%nat.
Proof.
  intros days Hc.
  destruct (leadingDays_spec days) as (_ & Hdow & Hfirst).
  pose proof (weeksOf_aligned days Hc) as Haligned.
  destruct (weeksOf_concat days) as (t & Heq & _ & _ & Ht).
  apply (f_equal (@List.length Day)) in Heq.
  rewrite (concat_length_7 _ Haligned), !length_app in Heq.
  assert (Hlead : (List.length (leadingDays days) <= 6)%nat).
  { destruct days as [|day rest]; [simpl; lia|].
    rewrite Hfirst. cbn [consecutive] in Hc.
    apply andb_true_iff in Hc. destruct Hc as [Hc _].
    apply andb_true_iff in Hc. destruct Hc as [Hlt _].
    apply Nat.ltb_lt in Hlt. lia. }
  lia.
Qed.

(** For consecutive days of the calendar every column of the grid has
    seven cells, and the cell in row [i] of a column is for day [i] of the
    week, Sunday first; the empty cells fill the rows that have no day.
    There are as many columns as the days need and no more. *)
Theorem weeks_have_seven_days :
  forall days,
    consecutive days = true ->
    Forall (fun week => map dayOfWeek week = [0; 1; 2; 3; 4; 5; 6]%nat)
           (weeksOf days)
    /\ (7 * List.length (weeksOf days) < List.length days + 13)%nat
    /\ (List.length days <= 7 * List.length (weeksOf days))%nat.
Proof.
  intros days Hc. split.
  - apply weeksOf_aligned. exact Hc.
  - apply weeksOf_count. exact Hc.
Qed.

Lemma weeks_have_seven_days_witness :
  Forall (fun week => map dayOfWeek week = [0; 1; 2; 3; 4; 5; 6]%nat)
         (weeksOf [mkDay "2024-05-14" 2 9 2 false;
                   mkDay "2024-05-15" 1 4 3 true]).
Proof.
  apply (weeks_have_seven_days
           [mkDay "2024-05-14" 2 9 2 false; mkDay "2024-05-15" 1 4 3 true]).
  reflexivity.
Defined.

(** ** The year of the heatmap *)

Section Year.

Variable calendar : nat -> string * nat.
Variable dailyActivity : list PeopleApi.DailyActivity.

Hypothesis dates : forall i, fst (calendar i) <> EmptyString.
Hypothesis weekdays : forall i, (snd (calendar i) < 7)%nat.
Hypothesis yesterday :
  forall i, snd (calendar i) = ((snd (calendar (S i)) + 1) mod 7)%nat.

Lemma generateDay_one :
  forall i,
    exists day,
      generateDay calendar dailyActivity i = [day]
      /\ dayOfWeek day = snd (calendar i)
      /\ date day = fst (calendar i)
      /\ isToday day = Nat.eqb i 0.
Proof.
  intros i. unfold generateDay. pose proof (dates i) as Hd.
  destruct (fst (calendar i)) as [|a d]; [contradiction|].
  eexists. split; [reflexivity|]. repeat split.
Qed.

Lemma generateDays_upto :
  forall n,
    List.length (flat_map (generateDay calendar dailyActivity)
                          (rev (seq 0 n))) = n
    /\ consecutive (flat_map (generateDay calendar dailyActivity)
                             (rev (seq 0 n))) = true
    /\ match flat_map (generateDay calendar dailyActivity) (rev (seq 0 n)) with
       | [] => n = O
       | day :: _ => dayOfWeek day = snd (calendar (n - 1))
       end.
Proof.
  induction n as [|n (Hlen & Hcons & Hhead)].
  - repeat split.
  - rewrite seq_S, rev_app_distr. cbn [rev app flat_map Nat.add].
    destruct (generateDay_one n) as (day & -> & Hdow & _).
    cbn [app List.length consecutive].
    split; [lia|]. split.
    + rewrite Hcons, Hdow, andb_true_r.
      apply andb_true_iff. split; [apply Nat.ltb_lt, weekdays|].
      destruct (flat_map (generateDay calendar dailyActivity)
                         (rev (seq 0 n))) as [|next rest].
      * reflexivity.
      * apply Nat.eqb_eq. rewrite Hhead.
        destruct n as [|n]; [discriminate|].
        replace (S n - 1)%nat with n by lia. apply yesterday.
    + replace (S n - 1)%nat with n by lia. exact Hdow.
Qed.

End Year.

(** With a calendar that gives every day a date, the last of the days is
    today, with the date of today, and it is the only one marked as
    today. *)
Theorem today_is_the_last_day :
  forall calendar dailyActivity,
    (forall i, fst (calendar i) <> EmptyString) ->
    exists before today,
      generateDays calendar dailyActivity = before ++ [today]
      /\ isToday today = true
      /\ date today = fst (calendar 0%nat)
      /\ Forall (fun day => isToday day = false) before.
Proof.
  intros calendar dailyActivity Hdates. unfold generateDays.
  change (seq 0 365) with (0%nat :: seq 1 364).
  cbn [rev]. rewrite flat_map_app. cbn [flat_map]. rewrite app_nil_r.
  destruct (generateDay_one calendar dailyActivity Hdates 0)
    as (today & -> & _ & Hdate & Htoday).
  exists (flat_map (generateDay calendar dailyActivity) (rev (seq 1 364))), today.
  repeat split; auto.
  apply Forall_forall. intros day Hday.
  apply in_flat_map in Hday. destruct Hday as (i & Hi & Hday).
  apply in_rev, in_seq in Hi.
  destruct (generateDay_one calendar dailyActivity Hdates i)
    as (day' & Heq & _ & _ & Hflag).
  rewrite Heq in Hday. destruct Hday as [<-|[]].
  rewrite Hflag. apply Nat.eqb_neq. lia.
Qed.

Lemma today_is_the_last_day_witness :
  exists before today,
    generateDays sampleCalendar [] = before ++ [today]
    /\ isToday today = true
    /\ date today = fst (sampleCalendar 0%nat)
    /\ Forall (fun day => isToday day = false) before.
Proof.
  apply (today_is_the_last_day sampleCalendar []).
  intros i. discriminate.
Defined.

(** With a calendar that gives every day a date and a day of the week,
    each day one weekday after the day before, the heatmap has 365 days in
    53 columns of seven cells, whatever the weekday of today, and the cell
    in row [i] of every column is for day [i] of the week. *)
Theorem heatmap_has_53_weeks :
  forall calendar dailyActivity,
    (forall i, fst (calendar i) <> EmptyString) ->
    (forall i, (snd (calendar i) < 7)%nat) ->
    (forall i, snd (calendar i) = ((snd (calendar (S i)) + 1) mod 7)%nat) ->
    List.length (generateDays calendar dailyActivity) = 365%nat
    /\ List.length (weeksOf (generateDays calendar dailyActivity)) = 53%nat
    /\ Forall (fun week => map dayOfWeek week = [0; 1; 2; 3; 4; 5; 6]%nat)
              (weeksOf (generateDays calendar dailyActivity)).
Proof.
  intros calendar dailyActivity Hdates Hweekdays Hyesterday.
  destruct (generateDays_upto calendar dailyActivity
                              Hdates Hweekdays Hyesterday 365)
    as (Hlen & Hcons & _).
  fold (generateDays calendar dailyActivity) in Hlen, Hcons.
  pose proof (weeksOf_aligned _ Hcons) as Hseven.
  destruct (weeksOf_count _ Hcons) as (Hupper & Hlower).
  split; [exact Hlen|]. split; [|exact Hseven].
  rewrite Hlen in Hupper, Hlower. lia.
Qed.

Lemma heatmap_has_53_weeks_witness :
  List.length (weeksOf (generateDays sampleCalendar [])) = 53%nat.
Proof.
  apply (heatmap_has_53_weeks sampleCalendar []).
  - intros i. discriminate.
  - intros i. apply Nat.mod_upper_bound. discriminate.
  - intros i. unfold sampleCalendar. cbn [snd].
    rewrite Nat.Div0.add_mod_idemp_l.
    replace (3 + 6 * S i + 1)%nat with ((3 + 6 * i) + 1 * 7)%nat by lia.
    rewrite Nat.Div0.mod_add. reflexivity.
Defined.

End HeatmapWeeks.

Section HeatmapMonths.

Import Heatmap.

Variable getMonth : string -> Z.

Lemma StronglySorted_snoc :
  forall (A : Type) (R : A -> A -> Prop) l y,
    StronglySorted R l ->
    Forall (fun x => R x y) l ->
    StronglySorted R (l ++ [y]).
Proof.
  intros A R l y Hl Hy. induction Hl as [|x l Hl IH Hx]; simpl.
  - repeat constructor.
  - inversion Hy as [|? ? Hxy Hy']; subst. constructor.
    + apply IH. exact Hy'.
    + apply Forall_app. split; [exact Hx | repeat constructor; exact Hxy].
Qed.

Lemma monthStep_spaced :
  forall n st weekIndex week,
    (weekIndex < n)%nat ->
    spaced n st ->
    spaced n (monthStep getMonth st (weekIndex, week)).
Proof.
  intros n st weekIndex week Hi (Hsorted & Hlast & Hmult).
  unfold monthStep.
  destruct (find (fun day => negb (String.eqb (date day) "")) week)
    as [firstDayOfWeek|]; [|repeat split; assumption].
  destruct (negb (getMonth (date firstDayOfWeek) =? currentMonth st)
            && (Z.of_nat weekIndex * 16 >? lastPosition st + 40)) eqn:Hcond;
    [|repeat split; assumption].
  apply andb_true_iff in Hcond. destruct Hcond as [_ Hgap].
  apply Z.gtb_lt in Hgap.
  rewrite Forall_forall in Hlast.
  repeat split; simpl.
  - apply StronglySorted_snoc; [exact Hsorted|].
    apply Forall_forall. intros p Hp. specialize (Hlast p Hp). simpl. lia.
  - apply Forall_app. split.
    + apply Forall_forall. intros p Hp. specialize (Hlast p Hp). lia.
    + repeat constructor. simpl. lia.
  - apply Forall_app. split; [exact Hmult|].
    repeat constructor. exists weekIndex. simpl. auto.
Qed.

Lemma monthSteps_spaced :
  forall n indexed st,
    Forall (fun iw => (fst iw < n)%nat) indexed ->
    spaced n st ->
    spaced n (fold_left (monthStep getMonth) indexed st).
Proof.
  intros n indexed. induction indexed as [|[i week] indexed IH];
    intros st Hidx Hst; simpl.
  - exact Hst.
  - inversion Hidx as [|? ? Hi Hidx']; subst. apply IH; [exact Hidx'|].
    apply monthStep_spaced; assumption.
Qed.

(** The month labels above the grid never run into each other: each label
    starts more than 40 pixels to the right of the one before it, at the
    left edge of one of the columns, which are 16 pixels apart. *)
Theorem month_labels_are_spaced :
  forall weeks,
    StronglySorted (fun a b => position a + 40 < position b)
                   (getMonthPositions getMonth weeks)
    /\ Forall (fun p => exists weekIndex,
                   (weekIndex < List.length weeks)%nat
                   /\ position p = Z.of_nat weekIndex * 16)
              (getMonthPositions getMonth weeks).
Proof.
  intros weeks. unfold getMonthPositions.
  destruct (monthSteps_spaced
              (List.length weeks)
              (combine (seq 0 (List.length weeks)) weeks)
              (mkMonthState [] (-1) (-60)))
    as (Hsorted & _ & Hmult).
  - apply Forall_forall. intros [i week] Hin.
    apply in_combine_l in Hin. apply in_seq in Hin. simpl. lia.
  - repeat split; constructor.
  - split; assumption.
Qed.

End HeatmapMonths.
